(** * The [ion-select] component: a shallow embedding of [select.tsx]

    The component instance ([this]) is a record of its fields.  The option
    elements it refers to live in an element store addressed by reference,
    because [childOpts] holds references to DOM elements that the handlers
    mutate in place and compare by identity.  Everything the component
    sends outwards (emitted events, console warnings, calls to the overlay
    controllers) is appended to a log, so that "emits exactly one event" is
    a statement about that log.

    Each method is a function from the page before the call to the page
    after it, paired with the result where the method has one.

    - An assignment [this.value = v] is the field write the source
      performs.  The framework answers a changed property by running the
      [@Watch] callback; [valueChanged] and [disabledChanged] are those
      callbacks, modelled as transitions of their own.
    - [async] methods run to their end; the promises they await resolve.
    - The arrow functions handed to the overlays are the constructors of
      [Handler], run by [call_handler].
    - [componentDidLoad] and [render] work on an [Instance], the page
      together with the properties only they use. *)

From Stdlib Require Import ZArith String Ascii List Bool Lia.
From stdpp Require Import gmap strings list fin_maps.
Import ListNotations.

Local Open Scope Z_scope.
Local Open Scope nat_scope.

(** ** JavaScript values

    [value] is declared [any].  Numbers are compared and tested for zero
    only, so an integer stands for a number and [JNaN] for the one number
    that [===] and [includes] treat differently.  Objects and arrays are
    compared by reference; an array carries its reference and its current
    items. *)

#[warnings="-register-all"]
Inductive JsValue : Type :=
| JUndefined
| JNull
| JBool (b : bool)
| JNumber (n : Z)
| JNaN
| JString (s : string)
| JObject (ref : nat)
| JArray (ref : nat) (items : list JsValue).

Module Js.

(** [Array.isArray(v)] *)
Definition isArray (v : JsValue) : bool :=
  match v with JArray _ _ => true | _ => false end.

(** [a === b] *)
Definition strictEquals (a b : JsValue) : bool :=
  match a, b with
  | JUndefined, JUndefined => true
  | JNull, JNull => true
  | JBool x, JBool y => Bool.eqb x y
  | JNumber x, JNumber y => Z.eqb x y
  | JString x, JString y => String.eqb x y
  | JObject x, JObject y => Nat.eqb x y
  | JArray x _, JArray y _ => Nat.eqb x y
  | _, _ => false
  end.

(** The comparison [Array.prototype.includes] uses (SameValueZero): as
    [===], except that NaN equals itself. *)
Definition sameValueZero (a b : JsValue) : bool :=
  match a, b with
  | JNaN, JNaN => true
  | _, _ => strictEquals a b
  end.

(** [arr.includes(v)] *)
Definition includes (arr : list JsValue) (v : JsValue) : bool :=
  existsb (fun e => sameValueZero e v) arr.

(** The truth value a condition gives [v]: [!v] is [negb (truthy v)]. *)
Definition truthy (v : JsValue) : bool :=
  match v with
  | JUndefined | JNull | JNaN => false
  | JBool b => b
  | JNumber n => negb (Z.eqb n 0)
  | JString s => negb (String.eqb s EmptyString)
  | JObject _ | JArray _ _ => true
  end.

(** [v != null]: the loose comparison, false for both null and undefined *)
Definition notNullish (v : JsValue) : bool :=
  match v with JUndefined | JNull => false | _ => true end.

(** [texts.join(sep)]; an element that is null or undefined joins as the
    empty string. *)
Definition join (sep : string) (texts : list (option string)) : string :=
  String.concat sep (map (fun t => match t with Some s => s | None => EmptyString end) texts).

End Js.

(** ** The option elements *)

(** An [ion-select-option] element, with the properties the select reads
    and writes.  [textContent] is typed [string | null]. *)
Record SelectOption : Type := {
  o_value : JsValue;
  o_selected : bool;
  o_textContent : option string;
  o_disabled : bool
}.

Definition set_selected (b : bool) (o : SelectOption) : SelectOption :=
  {| o_value := o_value o; o_selected := b;
     o_textContent := o_textContent o; o_disabled := o_disabled o |}.

(** An element on which none of the properties was ever set. *)
Definition blank_element : SelectOption :=
  {| o_value := JUndefined; o_selected := false;
     o_textContent := None; o_disabled := false |}.

(** Reading the element behind a reference. *)
Definition element (els : gmap nat SelectOption) (r : nat) : SelectOption :=
  default blank_element (els !! r).

(** [r.selected = b] *)
Definition write_selected (r : nat) (b : bool) (els : gmap nat SelectOption)
  : gmap nat SelectOption :=
  <[r := set_selected b (element els r)]> els.

(** ** Overlays, their options and their handlers *)

(** [SelectInterface]: the three literal strings the property may hold. *)
Inductive SelectInterface : Type := ActionSheet | Popover | Alert.

Definition interface_name (i : SelectInterface) : string :=
  match i with
  | ActionSheet => "action-sheet"
  | Popover => "popover"
  | Alert => "alert"
  end.

Definition is_interface (i j : SelectInterface) : bool :=
  match i, j with
  | ActionSheet, ActionSheet | Popover, Popover | Alert, Alert => true
  | _, _ => false
  end.

(** The activating event handed to [open]; only its presence and its
    identity matter. *)
Inductive UIEvent : Type := MkUIEvent (id : nat).

(** The closures the component hands to the overlays, one constructor per
    arrow function in the source.  Each captures [this]; the two option
    handlers capture the option element as well, and read its value when
    they run. *)
Inductive Handler : Type :=
| PopoverOptionHandler (o : nat)
| ActionSheetOptionHandler (opt : nat)
| CancelHandler
| AlertOkHandler.

Record SelectPopoverOption : Type := {
  po_text : option string;
  po_value : JsValue;
  po_checked : bool;
  po_disabled : bool;
  po_handler : Handler
}.

Record ActionSheetButton : Type := {
  ab_role : string;
  ab_text : option string;
  ab_handler : Handler
}.

Record AlertInput : Type := {
  ai_type : string;
  ai_label : option string;
  ai_value : JsValue;
  ai_checked : bool;
  ai_disabled : bool
}.

Record AlertButton : Type := {
  bt_text : string;
  bt_role : option string;
  bt_handler : Handler
}.

(** The option objects built for the three controllers.  [spread] is the
    [...interfaceOptions] part; the named fields are those the source
    writes after it. *)
Inductive OverlayOptions : Type :=
| PopoverOptions (spread : gmap string JsValue) (component : string)
    (cssClass : list JsValue) (event : option UIEvent)
    (header subHeader message value : JsValue)
    (options : list SelectPopoverOption)
| ActionSheetOptions (spread : gmap string JsValue)
    (buttons : list ActionSheetButton) (cssClass : list JsValue)
| AlertOptions (spread : gmap string JsValue) (header : JsValue)
    (inputs : list AlertInput) (buttons : list AlertButton)
    (cssClass : list JsValue).

(** An overlay object, as a controller returns it. *)
Record Overlay : Type := {
  ov_ref : nat;
  ov_opts : OverlayOptions
}.

Definition overlay_interface (ov : Overlay) : SelectInterface :=
  match ov_opts ov with
  | PopoverOptions _ _ _ _ _ _ _ _ _ => Popover
  | ActionSheetOptions _ _ _ => ActionSheet
  | AlertOptions _ _ _ _ _ => Alert
  end.


(** ** What the component sends outwards *)

Inductive Effect : Type :=
| ConsoleWarn (message : string)
| IonChange (text : string) (value : JsValue)
| IonCancel
| IonStyle (classes : gmap string bool)
| Create (ov : Overlay)
| Present (ov : Overlay)
| Dismiss (ov : Overlay).

Definition is_ionChange (e : Effect) : bool :=
  match e with IonChange _ _ => true | _ => false end.

Definition is_ionStyle (e : Effect) : bool :=
  match e with IonStyle _ => true | _ => false end.

Definition is_create (e : Effect) : bool :=
  match e with Create _ => true | _ => false end.

Definition is_warning (e : Effect) : bool :=
  match e with ConsoleWarn _ => true | _ => false end.

Definition is_dismiss (e : Effect) : bool :=
  match e with Dismiss _ => true | _ => false end.

(** ** The component and the page around it *)

(** The fields of the class that the modelled methods read or write. *)
Record Select : Type := {
  childOpts : list nat;
  overlay : option Overlay;
  isExpanded : bool;
  text : string;
  disabled : bool;
  cancelText : string;
  okText : string;
  multiple : bool;
  interface : SelectInterface;
  interfaceOptions : gmap string JsValue;
  value : JsValue
}.

(** The component together with what it reaches: the option elements by
    reference, the result [el.querySelectorAll('ion-select-option')] has at
    this moment, the text of the label [getLabel] finds (if it finds one),
    the next unused object reference, and the log. *)
Record Page : Type := {
  this : Select;
  elements : gmap nat SelectOption;
  descendants : list nat;
  label : option (option string);
  next_ref : nat;
  log : list Effect
}.

Definition with_this (f : Select -> Select) (p : Page) : Page :=
  {| this := f (this p); elements := elements p;
     descendants := descendants p; label := label p;
     next_ref := next_ref p; log := log p |}.

Definition set_childOpts (l : list nat) : Page -> Page :=
  with_this (fun s =>
    {| childOpts := l; overlay := overlay s; isExpanded := isExpanded s;
       text := text s; disabled := disabled s; cancelText := cancelText s;
       okText := okText s; multiple := multiple s; interface := interface s;
       interfaceOptions := interfaceOptions s; value := value s |}).

Definition set_overlay (o : option Overlay) : Page -> Page :=
  with_this (fun s =>
    {| childOpts := childOpts s; overlay := o; isExpanded := isExpanded s;
       text := text s; disabled := disabled s; cancelText := cancelText s;
       okText := okText s; multiple := multiple s; interface := interface s;
       interfaceOptions := interfaceOptions s; value := value s |}).

Definition set_isExpanded (b : bool) : Page -> Page :=
  with_this (fun s =>
    {| childOpts := childOpts s; overlay := overlay s; isExpanded := b;
       text := text s; disabled := disabled s; cancelText := cancelText s;
       okText := okText s; multiple := multiple s; interface := interface s;
       interfaceOptions := interfaceOptions s; value := value s |}).

Definition set_text (t : string) : Page -> Page :=
  with_this (fun s =>
    {| childOpts := childOpts s; overlay := overlay s;
       isExpanded := isExpanded s; text := t; disabled := disabled s;
       cancelText := cancelText s; okText := okText s;
       multiple := multiple s; interface := interface s;
       interfaceOptions := interfaceOptions s; value := value s |}).

(** [this.value = v], the write itself.  Running the [@Watch('value')]
    callback after a write is the framework's doing; the callback is the
    transition [valueChanged] below. *)
Definition set_value (v : JsValue) : Page -> Page :=
  with_this (fun s =>
    {| childOpts := childOpts s; overlay := overlay s;
       isExpanded := isExpanded s; text := text s; disabled := disabled s;
       cancelText := cancelText s; okText := okText s;
       multiple := multiple s; interface := interface s;
       interfaceOptions := interfaceOptions s; value := v |}).

Definition set_elements (els : gmap nat SelectOption) (p : Page) : Page :=
  {| this := this p; elements := els; descendants := descendants p;
     label := label p; next_ref := next_ref p; log := log p |}.

(** Appending to the log. *)
Definition emit (e : Effect) (p : Page) : Page :=
  {| this := this p; elements := elements p; descendants := descendants p;
     label := label p; next_ref := next_ref p; log := log p ++ [e] |}.

(** Taking a fresh object reference. *)
Definition fresh (p : Page) : nat * Page :=
  (next_ref p,
   {| this := this p; elements := elements p; descendants := descendants p;
      label := label p; next_ref := S (next_ref p); log := log p |}).

(** ** The methods of [Select] *)

(** The items of an array; no items for anything else. *)
Definition array_items (v : JsValue) : list JsValue :=
  match v with JArray _ items => items | _ => [] end.

(** [hasValue()] *)
Definition hasValue (p : Page) : bool :=
  let v := value (this p) in
  if Js.isArray v then Nat.ltb 0 (length (array_items v))
  else Js.notNullish v
       && negb (Js.strictEquals v JUndefined)
       && negb (Js.strictEquals v (JString EmptyString)).

(** The object literal [emitStyle] passes to [ionStyle.emit]. *)
Definition style_classes (p : Page) : gmap string bool :=
  <["select-disabled" := disabled (this p)]>
    (<["interactive-disabled" := disabled (this p)]>
       (<["has-value" := hasValue p]>
          (<["select" := true]>
             (<["interactive" := true]> ∅)))).

(** [emitStyle()] *)
Definition emitStyle (p : Page) : Page :=
  emit (IonStyle (style_classes p)) p.

(** [disabledChanged()], the [@Watch('disabled')] callback *)
Definition disabledChanged (p : Page) : Page :=
  emitStyle p.

(** [const values = Array.isArray(value) ? value : [value]] *)
Definition values_of (v : JsValue) : list JsValue :=
  if Js.isArray v then array_items v else [v].

(** The variables the [forEach] callback of [valueChanged] updates: the
    option elements, [hasChecked] and [texts]. *)
Record Scan : Type := {
  sc_elements : gmap nat SelectOption;
  sc_hasChecked : bool;
  sc_texts : list string
}.

(** [textContent || ''] *)
Definition text_or_empty (t : option string) : string :=
  match t with
  | Some s => s
  | None => EmptyString
  end.

(** One call of the [forEach] callback of [valueChanged]. *)
Definition check_option (values : list JsValue) (multiple : bool)
    (st : Scan) (selectOption : nat) : Scan :=
  let o := element (sc_elements st) selectOption in
  let selected := Js.includes values (o_value o) in
  if selected && (multiple || negb (sc_hasChecked st)) then
    {| sc_elements := write_selected selectOption true (sc_elements st);
       sc_hasChecked := true;
       sc_texts := sc_texts st ++ [text_or_empty (o_textContent o)] |}
  else
    {| sc_elements := write_selected selectOption false (sc_elements st);
       sc_hasChecked := sc_hasChecked st;
       sc_texts := sc_texts st |}.

(** [valueChanged()], the [@Watch('value')] callback *)
Definition valueChanged (p : Page) : Page :=
  let value := value (this p) in
  let values := values_of value in
  let st := fold_left (check_option values (multiple (this p)))
              (childOpts (this p))
              {| sc_elements := elements p; sc_hasChecked := false;
                 sc_texts := [] |} in
  let p := set_elements (sc_elements st) p in
  let p := set_text (String.concat ", " (sc_texts st)) p in
  let p := emit (IonChange (text (this p)) value) p in
  emitStyle p.

(** [this.value.push(x)]: the array keeps its reference.  The array held
    in [this.value] is the only one the modelled methods change in place. *)
Definition push (v x : JsValue) : JsValue :=
  match v with
  | JArray r items => JArray r (items ++ [x])
  | _ => v
  end.

(** [this.childOpts.filter(o => o.selected).map(o => o.value)] *)
Definition selected_values (els : gmap nat SelectOption) (opts : list nat)
  : list JsValue :=
  map (fun o => o_value (element els o))
      (List.filter (fun o => o_selected (element els o)) opts).

(** [optLoad(ev)], listening to [ionSelectOptionDidLoad] and
    [ionSelectOptionDidUnload]; [target] is [ev.target]. *)
Definition optLoad (target : nat) (p : Page) : Page :=
  let p := set_childOpts (descendants p) p in
  let p :=
    if multiple (this p) then
      let '(r, p) := fresh p in
      set_value (JArray r (selected_values (elements p) (childOpts (this p)))) p
    else p in
  let selectOption := element (elements p) target in
  let v := value (this p) in
  if (Js.notNullish v
      && (Js.isArray v && Js.includes (array_items v) (o_value selectOption)))
     || Js.strictEquals (o_value selectOption) v
  then set_elements (write_selected target true (elements p)) p
  else if Js.isArray v && multiple (this p) && o_selected selectOption
  then set_value (push v (o_value selectOption)) p
  else if Js.strictEquals v JUndefined && o_selected selectOption
  then set_value (o_value selectOption) p
  else if o_selected selectOption
  then set_elements (write_selected target false (elements p)) p
  else p.

(** One call of the [forEach] callback of [onSelect]. *)
Definition onSelect_option (target : nat) (p : Page) (selectOption : nat)
  : Page :=
  if Nat.eqb selectOption target
  then set_value (o_value (element (elements p) selectOption)) p
  else set_elements (write_selected selectOption false (elements p)) p.

(** [onSelect(ev)], listening to [ionSelect]; [target] is [ev.target]. *)
Definition onSelect (target : nat) (p : Page) : Page :=
  fold_left (onSelect_option target) (childOpts (this p)) p.

(** [componentWillLoad()] *)
Definition componentWillLoad (p : Page) : Page :=
  if negb (Js.truthy (value (this p))) then
    if multiple (this p) then
      let '(r, p) := fresh p in set_value (JArray r []) p
    else set_value JUndefined p
  else p.

(** *** The overlay controllers *)

(** The controllers' [create] and the overlays' [present] and [dismiss]
    are framework calls ("promise-returning overlay lifecycle calls
    (open/dismiss), which are framework-provided"); their code is not in
    this file.  The promises the source awaits are taken to resolve. *)

(** Modelled from the spec: a controller's [create(opts)], which is missing
    here, returns a new overlay object ("a transient presentation surface
    ... opened on demand") for the options it is given. *)
Definition create (opts : OverlayOptions) (p : Page) : Overlay * Page :=
  let '(r, p) := fresh p in
  let ov := {| ov_ref := r; ov_opts := opts |} in
  (ov, emit (Create ov) p).

(** Modelled from the spec: an overlay's [present()], which is missing
    here, shows the overlay. *)
Definition present (ov : Overlay) (p : Page) : Page :=
  emit (Present ov) p.

(** What a promise returned by the component resolves to: a boolean the
    component supplies itself, or whatever the [dismiss()] of an overlay
    resolves to, which neither this file nor the specification fixes. *)
Inductive Resolution : Type :=
| Resolves (b : bool)
| ResolvesAsDismissOf (ov : Overlay).

(** Modelled from the spec: an overlay's [dismiss()], which is missing
    here, takes the overlay down ("dismissed after a choice is made or
    cancelled").  The promise it returns is handed on as it is. *)
Definition dismiss (ov : Overlay) (p : Page) : Resolution * Page :=
  (ResolvesAsDismissOf ov, emit (Dismiss ov) p).

(** [interfaceOptions.key]; a missing key reads as undefined. *)
Definition prop (io : gmap string JsValue) (key : string) : JsValue :=
  default JUndefined (io !! key).

(** What [getLabel] and [label ? label.textContent : null] give. *)
Definition labelText (p : Page) : JsValue :=
  match label p with
  | Some (Some s) => JString s
  | _ => JNull
  end.

(** [openPopover(ev)].  [open] passes [ev!], which at run time is [ev]. *)
Definition openPopover (ev : option UIEvent) (p : Page) : Overlay * Page :=
  let interfaceOptions := interfaceOptions (this p) in
  let popoverOpts :=
    PopoverOptions interfaceOptions "ion-select-popover"
      [JString "select-popover"; prop interfaceOptions "cssClass"]
      ev
      (prop interfaceOptions "header")
      (prop interfaceOptions "subHeader")
      (prop interfaceOptions "message")
      (value (this p))
      (map (fun o =>
              let e := element (elements p) o in
              {| po_text := o_textContent e; po_value := o_value e;
                 po_checked := o_selected e; po_disabled := o_disabled e;
                 po_handler := PopoverOptionHandler o |})
           (childOpts (this p))) in
  let '(popover, p) := create popoverOpts p in
  let p := set_overlay (Some popover) p in
  let p := present popover p in
  let p := set_isExpanded true p in
  (popover, p).

(** [openActionSheet()] *)
Definition openActionSheet (p : Page) : Overlay * Page :=
  let actionSheetButtons :=
    map (fun option =>
           let e := element (elements p) option in
           {| ab_role := if o_selected e then "selected" else EmptyString;
              ab_text := o_textContent e;
              ab_handler := ActionSheetOptionHandler option |})
        (childOpts (this p)) in
  let actionSheetButtons :=
    actionSheetButtons ++
    [{| ab_text := Some (cancelText (this p)); ab_role := "cancel";
        ab_handler := CancelHandler |}] in
  let interfaceOptions := interfaceOptions (this p) in
  let actionSheetOpts :=
    ActionSheetOptions interfaceOptions actionSheetButtons
      [JString "select-action-sheet"; prop interfaceOptions "cssClass"] in
  let '(actionSheet, p) := create actionSheetOpts p in
  let p := set_overlay (Some actionSheet) p in
  let p := present actionSheet p in
  let p := set_isExpanded true p in
  (actionSheet, p).

(** [openAlert()] *)
Definition openAlert (p : Page) : Overlay * Page :=
  let labelText := labelText p in
  let interfaceOptions := interfaceOptions (this p) in
  let inputType := if multiple (this p) then "checkbox" else "radio" in
  let alertOpts :=
    AlertOptions interfaceOptions
      (if Js.truthy (prop interfaceOptions "header")
       then prop interfaceOptions "header" else labelText)
      (map (fun o =>
              let e := element (elements p) o in
              {| ai_type := inputType; ai_label := o_textContent e;
                 ai_value := o_value e; ai_checked := o_selected e;
                 ai_disabled := o_disabled e |})
           (childOpts (this p)))
      [ {| bt_text := cancelText (this p); bt_role := Some "cancel";
           bt_handler := CancelHandler |};
        {| bt_text := okText (this p); bt_role := None;
           bt_handler := AlertOkHandler |} ]
      [JString "select-alert"; prop interfaceOptions "cssClass";
       JString (if multiple (this p) then "multiple-select-alert"
                else "single-select-alert")] in
  let '(alert, p) := create alertOpts p in
  let p := set_overlay (Some alert) p in
  let p := present alert p in
  let p := set_isExpanded true p in
  (alert, p).

(** A double quote, for the warnings that quote the interface name. *)
Definition dquote : string := String (ascii_of_nat 34) EmptyString.

Definition multi_value_warning (selectInterface : SelectInterface) : string :=
  "Select interface cannot be " +:+ dquote +:+ interface_name selectInterface
  +:+ dquote +:+ " with a multi-value select. Using the " +:+ dquote
  +:+ "alert" +:+ dquote +:+ " interface instead.".

Definition no_event_warning : string :=
  "Select interface cannot be a " +:+ dquote +:+ "popover" +:+ dquote
  +:+ " without passing an event. Using the " +:+ dquote +:+ "alert"
  +:+ dquote +:+ " interface instead.".

(** Whether the optional argument was passed: an event object is truthy,
    [undefined] is not. *)
Definition passed (ev : option UIEvent) : bool :=
  match ev with Some _ => true | None => false end.

(** [open(ev?)] *)
Definition open (ev : option UIEvent) (p : Page) : Overlay * Page :=
  let selectInterface := interface (this p) in
  let '(selectInterface, p) :=
    if (is_interface selectInterface ActionSheet
        || is_interface selectInterface Popover) && multiple (this p)
    then (Alert, emit (ConsoleWarn (multi_value_warning selectInterface)) p)
    else (selectInterface, p) in
  let '(selectInterface, p) :=
    if is_interface selectInterface Popover && negb (passed ev)
    then (Alert, emit (ConsoleWarn no_event_warning) p)
    else (selectInterface, p) in
  if is_interface selectInterface Popover then openPopover ev p
  else if is_interface selectInterface ActionSheet then openActionSheet p
  else openAlert p.

(** [close()], with what the returned promise resolves to. *)
Definition close (p : Page) : Resolution * Page :=
  match overlay (this p) with
  | None => (Resolves false, p)
  | Some overlay =>
      let p := set_overlay None p in
      let p := set_isExpanded false p in
      dismiss overlay p
  end.

(** Running one of the closures; [arg] is the argument the overlay calls
    it with (the alert passes the chosen values to its OK handler). *)
Definition call_handler (h : Handler) (arg : JsValue) (p : Page) : Page :=
  match h with
  | PopoverOptionHandler o =>
      let p := set_value (o_value (element (elements p) o)) p in
      snd (close p)
  | ActionSheetOptionHandler opt =>
      set_value (o_value (element (elements p) opt)) p
  | CancelHandler => emit IonCancel p
  | AlertOkHandler => set_value arg p
  end.

(** ** Reading the claims

    The definitions below say in the words of the specification what the
    methods are meant to compute; the theorems compare them with the
    methods above. *)

(** Whether an option's value is among [values]. *)
Definition hits (values : list JsValue) (els : gmap nat SelectOption)
    (o : nat) : bool :=
  Js.includes values (o_value (element els o)).

(** Whether an option's value is contained in the select's value, a value
    that is not an array counting as a one-element list. *)
Definition matches (els : gmap nat SelectOption) (v : JsValue) (o : nat)
  : bool :=
  hits (values_of v) els o.

(** Whether [tv] is contained in the select's value [v]: among its items
    when [v] is an array, and otherwise in the one-element list of [v]
    itself.  Written out by the shape of [v], apart from the code. *)
Definition contained_in (tv v : JsValue) : bool :=
  match v with
  | JArray _ items => Js.includes items tv
  | _ => Js.includes [v] tv
  end.

(** The options whose [selected] flag is set, in the order of [opts]. *)
Definition selected_opts (els : gmap nat SelectOption) (opts : list nat)
  : list nat :=
  List.filter (fun o => o_selected (element els o)) opts.

(** The display text of the selected options. *)
Definition display_text (els : gmap nat SelectOption) (opts : list nat)
  : string :=
  Js.join ", " (map (fun o => o_textContent (element els o))
                    (selected_opts els opts)).

(** The interface the specification names for a configuration. *)
Definition chosen_interface (i : SelectInterface) (event_passed multi : bool)
  : SelectInterface :=
  match i with
  | Popover => if event_passed && negb multi then Popover else Alert
  | ActionSheet => if negb multi then ActionSheet else Alert
  | Alert => Alert
  end.

(** Whether the specification expects a warning for a configuration. *)
Definition falls_back (i : SelectInterface) (event_passed multi : bool)
  : bool :=
  match i with
  | Popover => multi || negb event_passed
  | ActionSheet => multi
  | Alert => false
  end.

(** The payload of a style event as the specification lists it. *)
Definition style_payload (p : Page) (c : gmap string bool) : Prop :=
  c !! "interactive" = Some true /\
  c !! "select" = Some true /\
  c !! "has-value" = Some (hasValue p) /\
  c !! "interactive-disabled" = Some (disabled (this p)) /\
  c !! "select-disabled" = Some (disabled (this p)).

(** The values a condition treats as false. *)
Definition falsy (v : JsValue) : Prop :=
  v = JUndefined \/ v = JNull \/ v = JBool false \/ v = JNumber 0
  \/ v = JNaN \/ v = JString EmptyString.

(** What holds of the component between its callbacks: [childOpts] is empty
    or a result of [querySelectorAll], which lists an element once. *)
Definition well_formed (p : Page) : Prop :=
  NoDup (childOpts (this p)) /\ NoDup (descendants p).

(** The document around the component changes: option elements come and go
    and their properties are set from outside. *)
Definition set_document (els : gmap nat SelectOption) (ds : list nat)
    (lbl : option (option string)) (p : Page) : Page :=
  {| this := this p; elements := els; descendants := ds; label := lbl;
     next_ref := next_ref p; log := log p |}.

(** The host sets the properties of the component. *)
Definition set_props (dis multi : bool) (i : SelectInterface)
    (io : gmap string JsValue) (cancel ok : string) (p : Page) : Page :=
  with_this (fun s =>
    {| childOpts := childOpts s; overlay := overlay s;
       isExpanded := isExpanded s; text := text s; disabled := dis;
       cancelText := cancel; okText := ok; multiple := multi;
       interface := i; interfaceOptions := io; value := value s |}) p.

(** A component as its field initialisers leave it. *)
Definition initial (p : Page) : Prop :=
  childOpts (this p) = [] /\ overlay (this p) = None /\
  isExpanded (this p) = false /\ text (this p) = EmptyString /\
  log p = [] /\ NoDup (descendants p).

(** One callback of the component, or one change made from outside. *)
Inductive step : Page -> Page -> Prop :=
| step_valueChanged p : step p (valueChanged p)
| step_disabledChanged p : step p (disabledChanged p)
| step_optLoad target p : step p (optLoad target p)
| step_onSelect target p : step p (onSelect target p)
| step_componentWillLoad p : step p (componentWillLoad p)
| step_open ev p : step p (snd (open ev p))
| step_close p : step p (snd (close p))
| step_handler h arg p : step p (call_handler h arg p)
| step_value v p : step p (set_value v p)
| step_props dis multi i io cancel ok p :
    step p (set_props dis multi i io cancel ok p)
| step_document els ds lbl p :
    NoDup ds -> step p (set_document els ds lbl p).

Inductive reachable : Page -> Prop :=
| reachable_initial p : initial p -> reachable p
| reachable_step p q : reachable p -> step p q -> reachable q.

(** ** A page to run the methods on

    Three options, two of which share the value [a]; the select holds
    that value. *)

Definition demo_elements : gmap nat SelectOption :=
  <[1 := {| o_value := JString "a"; o_selected := false;
            o_textContent := Some "Apple"; o_disabled := false |}]>
  (<[2 := {| o_value := JString "b"; o_selected := true;
             o_textContent := Some "Banana"; o_disabled := false |}]>
  (<[3 := {| o_value := JString "a"; o_selected := true;
             o_textContent := Some "Avocado"; o_disabled := false |}]> ∅)).

Definition demo_select : Select :=
  {| childOpts := [1; 2; 3]; overlay := None; isExpanded := false;
     text := EmptyString; disabled := false; cancelText := "Cancel";
     okText := "OK"; multiple := false; interface := Alert;
     interfaceOptions := ∅; value := JString "a" |}.

Definition demo_page : Page :=
  {| this := demo_select; elements := demo_elements;
     descendants := [1; 2; 3]; label := None; next_ref := 10; log := [] |}.

(** The same select with [multiple] set, holding both values. *)
Definition demo_multiple : Page :=
  set_props false true Alert ∅ "Cancel" "OK"
    (set_value (JArray 4 [JString "b"; JString "a"]) demo_page).

(** Option 3 has left the document and is still selected; its unload event
    reaches a select with [multiple] set. *)
Definition detached_page : Page :=
  set_document demo_elements [1; 2] None demo_multiple.

(** ** Further readings of the code *)

(** The callbacks and methods of the component itself, without the changes
    made from outside. *)
Inductive callback : Page -> Page -> Prop :=
| callback_valueChanged p : callback p (valueChanged p)
| callback_disabledChanged p : callback p (disabledChanged p)
| callback_optLoad target p : callback p (optLoad target p)
| callback_onSelect target p : callback p (onSelect target p)
| callback_componentWillLoad p : callback p (componentWillLoad p)
| callback_open ev p : callback p (snd (open ev p))
| callback_close p : callback p (snd (close p))
| callback_handler h arg p : callback p (call_handler h arg p).

(** Whether the select's value accounts for an option's value: it is that
    value, or it is an array that has it as an item. *)
Definition accounts_for (v tv : JsValue) : bool :=
  Js.sameValueZero v tv || Js.includes (array_items v) tv.


(** The effects a page has logged beyond those of an earlier page. *)
Definition logged_since (p q : Page) : list Effect :=
  drop (length (log p)) (log q).

(** Two element stores that differ at most in [selected] flags. *)
Definition same_but_selected (els els' : gmap nat SelectOption) : Prop :=
  forall r,
    o_value (element els' r) = o_value (element els r) /\
    o_textContent (element els' r) = o_textContent (element els r) /\
    o_disabled (element els' r) = o_disabled (element els r).

(** A component as its field initialisers leave it, in a document with
    the three options of [demo_elements]. *)
Definition new_page : Page :=
  {| this := {| childOpts := []; overlay := None; isExpanded := false;
                text := EmptyString; disabled := false;
                cancelText := "Cancel"; okText := "OK"; multiple := false;
                interface := Alert; interfaceOptions := ∅;
                value := JUndefined |};
     elements := demo_elements; descendants := [1; 2; 3]; label := None;
     next_ref := 0; log := [] |}.

(** ** The rest of the instance: loading and rendering *)

(** [Mode] *)
Inductive Mode : Type := Ios | Md.

(** The component with the properties and fields that only
    [componentDidLoad] and [render] use.  [selectedText] and [placeholder]
    are [None] when null or undefined; [label_id] is the [id] attribute of
    the label element that [getLabel] finds. *)
Record Instance : Type := {
  page : Page;
  mode : Mode;
  placeholder : option string;
  name : string;
  selectedText : option string;
  labelId : option string;
  label_id : option string
}.

Definition set_page (p : Page) (i : Instance) : Instance :=
  {| page := p; mode := mode i; placeholder := placeholder i;
     name := name i; selectedText := selectedText i; labelId := labelId i;
     label_id := label_id i |}.

(** [this.labelId = label.id = id] *)
Definition set_label_ids (id : string) (i : Instance) : Instance :=
  {| page := page i; mode := mode i; placeholder := placeholder i;
     name := name i; selectedText := selectedText i; labelId := Some id;
     label_id := Some id |}.

(** How [componentDidLoad] ends.  With [multiple] set the source takes the
    value for an array ([this.value as string[]]) and has no branch for
    anything else; what the calls on another value do (on a primitive the
    assignment to [length] throws) is not followed further. *)
Inductive DidLoad : Type :=
| Loaded (i : Instance)
| NotAnArray.

(** [componentDidLoad()] *)
Definition componentDidLoad (i : Instance) : DidLoad :=
  let p := page i in
  let i :=
    match label p with
    | Some _ => set_label_ids (name i +:+ "-lbl") i
    | None => i
    end in
  if multiple (this p) then
    let checked :=
      List.filter (fun o => o_selected (element (elements p) o))
                  (childOpts (this p)) in
    match value (this p) with
    | JArray r _ =>
        let p := set_value (JArray r []) p in
        let p :=
          fold_left
            (fun p o =>
               set_value (push (value (this p)) (o_value (element (elements p) o))) p)
            checked p in
        let p :=
          set_text (Js.join ", "
                      (map (fun o => o_textContent (element (elements p) o))
                           checked)) p in
        Loaded (set_page (emitStyle p) i)
    | _ => NotAnArray
    end
  else
    let p :=
      match List.find (fun o => o_selected (element (elements p) o))
                      (childOpts (this p)) with
      | Some checked =>
          let p := set_value (o_value (element (elements p) checked)) p in
          set_text (text_or_empty (o_textContent (element (elements p) checked))) p
      | None => p
      end in
    Loaded (set_page (emitStyle p) i).

(** The page a load ended with, if it ended. *)
Definition loaded_page (d : DidLoad) : option Page :=
  match d with
  | Loaded i => Some (page i)
  | NotAnArray => None
  end.

Section Printing.

(** How a number and an object that is not an array print; neither is
    fixed by this file. *)
Variable numberToString : Z -> string.
Variable objectToString : nat -> string.

(** [v.toString()], and for an array [v.join(',')]: an item that is null
    or undefined joins as the empty string. *)
Fixpoint toString (v : JsValue) : string :=
  match v with
  | JUndefined => "undefined"
  | JNull => "null"
  | JBool b => if b then "true" else "false"
  | JNumber n => numberToString n
  | JNaN => "NaN"
  | JString s => s
  | JObject r => objectToString r
  | JArray _ items =>
      String.concat ","
        (map (fun e =>
                match e with
                | JUndefined | JNull => EmptyString
                | _ => toString e
                end) items)
  end.

(** [arr.join(sep)] on values *)
Definition join_values (sep : string) (items : list JsValue) : string :=
  String.concat sep
    (map (fun e =>
            match e with
            | JUndefined | JNull => EmptyString
            | _ => toString e
            end) items).

(** [parseValue(value)]; [None] is undefined. *)
Definition parseValue (value : JsValue) : option string :=
  if negb (Js.notNullish value) then None
  else if Js.isArray value then Some (join_values "," (array_items value))
  else Some (toString value).

(** The arguments of the call [renderHiddenInput(el, name, value, disabled)]. *)
Record HiddenInput : Type := {
  hi_name : string;
  hi_value : option string;
  hi_disabled : bool
}.

(** The methods bound as listeners in [render]. *)
Inductive Listener : Type := BoundOpen | BoundOnKeyUp | BoundOnFocus | BoundOnBlur.

Inductive AttrValue : Type :=
| AttrString (s : string)
| AttrNull
| AttrUndefined
| AttrClasses (classes : list (string * bool))
| AttrListener (l : Listener).

(** The nodes [render] returns; [VFalse] is the [false] that
    [cond && <node/>] leaves. *)
#[warnings="-register-all"]
Inductive VNode : Type :=
| VElement (tag : string) (attrs : list (string * AttrValue))
    (children : list VNode)
| VText (s : string)
| VFalse.

(** [this.selectedText || this.text] *)
Definition selectedText_or_text (i : Instance) : string :=
  match selectedText i with
  | Some s => if String.eqb s EmptyString then text (this (page i)) else s
  | None => text (this (page i))
  end.

(** [render()]: the hidden input it asks for, and the nodes. *)
Definition render (i : Instance) : HiddenInput * list VNode :=
  let s := this (page i) in
  let hidden :=
    {| hi_name := name i; hi_value := parseValue (value s);
       hi_disabled := disabled s |} in
  let addPlaceholderClass := false in
  let selectText := selectedText_or_text i in
  let '(selectText, addPlaceholderClass) :=
    match placeholder i with
    | Some ph =>
        if String.eqb selectText EmptyString then (ph, true)
        else (selectText, addPlaceholderClass)
    | None => (selectText, addPlaceholderClass)
    end in
  (hidden,
   [ VElement "div"
       [ ("role", AttrString "textbox");
         ("aria-multiline", AttrString "false");
         ("class", AttrClasses [ ("select-text", true);
                                 ("select-placeholder", addPlaceholderClass) ]) ]
       [ VText selectText ];
     VElement "div"
       [ ("class", AttrString "select-icon"); ("role", AttrString "presentation") ]
       [ VElement "div" [ ("class", AttrString "select-icon-inner") ] [] ];
     VElement "button"
       [ ("type", AttrString "button");
         ("role", AttrString "combobox");
         ("aria-haspopup", AttrString "dialog");
         ("aria-labelledby",
          match labelId i with Some id => AttrString id | None => AttrUndefined end);
         ("aria-expanded", if isExpanded s then AttrString "true" else AttrNull);
         ("aria-disabled", if disabled s then AttrString "true" else AttrNull);
         ("onClick", AttrListener BoundOpen);
         ("onKeyUp", AttrListener BoundOnKeyUp);
         ("onFocus", AttrListener BoundOnFocus);
         ("onBlur", AttrListener BoundOnBlur);
         ("class", AttrString "select-cover") ]
       [ VElement "slot" [] [];
         match mode i with Md => VElement "ion-ripple-effect" [] [] | Ios => VFalse end ]
   ]).

End Printing.

(** The nodes alone. *)
Definition rendered (numberToString : Z -> string)
    (objectToString : nat -> string) (i : Instance) : list VNode :=
  snd (render numberToString objectToString i).

(** The attribute of the [n]-th node, and the text it shows. *)
Definition node_attr (nodes : list VNode) (n : nat) (key : string)
  : option AttrValue :=
  match nth_error nodes n with
  | Some (VElement _ attrs _) =>
      snd <$> List.find (fun a => String.eqb (fst a) key) attrs
  | _ => None
  end.

Definition node_text (nodes : list VNode) (n : nat) : option string :=
  match nth_error nodes n with
  | Some (VElement _ _ (VText s :: _)) => Some s
  | _ => None
  end.

Definition node_class (nodes : list VNode) (n : nat) (c : string)
  : option bool :=
  match node_attr nodes n "class" with
  | Some (AttrClasses classes) =>
      snd <$> List.find (fun a => String.eqb (fst a) c) classes
  | _ => None
  end.

(** A select with a placeholder whose value no option carries, and one
    that sits in an item with a label. *)
Definition placeholder_instance : Instance :=
  {| page := set_value (JString "z") demo_page; mode := Md;
     placeholder := Some "Pick a fruit"; name := "fruit";
     selectedText := None; labelId := None; label_id := None |}.

Definition labelled_instance : Instance :=
  {| page := set_document demo_elements [1; 2; 3] (Some (Some "Fruit")) demo_page;
     mode := Ios; placeholder := None; name := "fruit";
     selectedText := None; labelId := None; label_id := None |}.

(** An instance around a page, as the property initialisers leave it. *)
Definition instance_of (p : Page) : Instance :=
  {| page := p; mode := Md; placeholder := None; name := "ion-sel-0";
     selectedText := None; labelId := None; label_id := None |}.

(** * Properties *)

(** ** Running the methods *)

(** With [multiple] set, every option whose value is in the array is
    selected, in document order. *)
Example valueChanged_multiple_run :
  selected_opts (elements (valueChanged demo_multiple)) [1; 2; 3] = [1; 2; 3]
  /\ text (this (valueChanged demo_multiple)) = "Apple, Banana, Avocado".
Proof. vm_compute. split; reflexivity. Qed.

(** A value no option carries deselects every option and empties the
    text. *)
Example valueChanged_no_match_run :
  selected_opts
    (elements (valueChanged (set_value (JString "z") demo_page))) [1; 2; 3] = []
  /\ text (this (valueChanged (set_value (JString "z") demo_page)))
     = EmptyString.
Proof. vm_compute. split; reflexivity. Qed.

Example hasValue_run :
  hasValue (set_value (JArray 0 []) demo_page) = false
  /\ hasValue (set_value (JArray 0 [JUndefined]) demo_page) = true
  /\ hasValue (set_value (JString EmptyString) demo_page) = false
  /\ hasValue (set_value JNaN demo_page) = true.
Proof. repeat split. Qed.

(** A popover asked for without an event: a warning, then an alert. *)
Example open_popover_without_event_run :
  overlay_interface
    (fst (open None (set_props false false Popover ∅ "Cancel" "OK" demo_page)))
  = Alert
  /\ List.filter is_warning
       (log (snd (open None
          (set_props false false Popover ∅ "Cancel" "OK" demo_page))))
     = [ConsoleWarn no_event_warning].
Proof. vm_compute. split; reflexivity. Qed.

(** A single select whose value is undefined takes the value of a loaded
    option that is selected. *)
Example optLoad_single_run :
  value (this (optLoad 2 (set_value JUndefined demo_page))) = JString "b".
Proof. vm_compute. reflexivity. Qed.

(** ** The element store *)

Lemma element_write_same r b (els : gmap nat SelectOption) :
  element (write_selected r b els) r = set_selected b (element els r).
Proof. unfold write_selected, element at 1. by rewrite lookup_insert_eq. Qed.

Lemma lookup_write_other r r' b (els : gmap nat SelectOption) :
  r <> r' -> write_selected r b els !! r' = els !! r'.
Proof. intros Hne. unfold write_selected. by rewrite lookup_insert_ne. Qed.

Lemma element_write_other r r' b (els : gmap nat SelectOption) :
  r <> r' -> element (write_selected r b els) r' = element els r'.
Proof. intros Hne. unfold element. by rewrite lookup_write_other. Qed.

(** A write to [selected] leaves every other property of every element as
    it was. *)
Lemma element_write_value r r' b (els : gmap nat SelectOption) :
  o_value (element (write_selected r b els) r') = o_value (element els r').
Proof.
  destruct (decide (r = r')) as [->|Hne].
  - by rewrite element_write_same.
  - by rewrite element_write_other.
Qed.

Lemma element_write_text r r' b (els : gmap nat SelectOption) :
  o_textContent (element (write_selected r b els) r')
  = o_textContent (element els r').
Proof.
  destruct (decide (r = r')) as [->|Hne].
  - by rewrite element_write_same.
  - by rewrite element_write_other.
Qed.

Lemma element_write_disabled r r' b (els : gmap nat SelectOption) :
  o_disabled (element (write_selected r b els) r')
  = o_disabled (element els r').
Proof.
  destruct (decide (r = r')) as [->|Hne].
  - by rewrite element_write_same.
  - by rewrite element_write_other.
Qed.

(** ** JavaScript comparisons *)

Lemma sameValueZero_refl v : Js.sameValueZero v v = true.
Proof.
  destruct v; simpl; try reflexivity.
  - apply Bool.eqb_reflx.
  - apply Z.eqb_refl.
  - apply String.eqb_refl.
  - apply Nat.eqb_refl.
  - apply Nat.eqb_refl.
Qed.

Lemma existsb_pointwise {A} (f g : A -> bool) (l : list A) :
  (forall x, f x = g x) -> existsb f l = existsb g l.
Proof.
  intros Hfg. induction l as [|x l IH]; simpl; [done|].
  by rewrite Hfg, IH.
Qed.

Lemma includes_elem_of (f : nat -> JsValue) (l : list nat) (x : nat) :
  x ∈ l -> Js.includes (map f l) (f x) = true.
Proof.
  intros Hin. unfold Js.includes. apply existsb_exists.
  exists (f x). split; [|apply sameValueZero_refl].
  apply in_map. by apply list_elem_of_In.
Qed.

(** ** The scan of [valueChanged] *)

Section Scan.

Variable values : list JsValue.
Variable multi : bool.

Lemma check_option_value st o r :
  o_value (element (sc_elements (check_option values multi st o)) r)
  = o_value (element (sc_elements st) r).
Proof.
  unfold check_option.
  destruct (_ && _); simpl; apply element_write_value.
Qed.

Lemma check_option_text st o r :
  o_textContent (element (sc_elements (check_option values multi st o)) r)
  = o_textContent (element (sc_elements st) r).
Proof.
  unfold check_option.
  destruct (_ && _); simpl; apply element_write_text.
Qed.

Lemma check_option_disabled st o r :
  o_disabled (element (sc_elements (check_option values multi st o)) r)
  = o_disabled (element (sc_elements st) r).
Proof.
  unfold check_option.
  destruct (_ && _); simpl; apply element_write_disabled.
Qed.

Lemma check_option_other st o r :
  o <> r ->
  sc_elements (check_option values multi st o) !! r = sc_elements st !! r.
Proof.
  intros Hne. unfold check_option.
  destruct (_ && _); simpl; by apply lookup_write_other.
Qed.

Lemma check_option_hits st o r :
  hits values (sc_elements (check_option values multi st o)) r
  = hits values (sc_elements st) r.
Proof. unfold hits. by rewrite check_option_value. Qed.

Lemma scan_value opts : forall st r,
  o_value (element (sc_elements (fold_left (check_option values multi) opts st)) r)
  = o_value (element (sc_elements st) r).
Proof.
  induction opts as [|o opts IH]; intros st r; simpl; [done|].
  by rewrite IH, check_option_value.
Qed.

Lemma scan_text opts : forall st r,
  o_textContent (element (sc_elements (fold_left (check_option values multi) opts st)) r)
  = o_textContent (element (sc_elements st) r).
Proof.
  induction opts as [|o opts IH]; intros st r; simpl; [done|].
  by rewrite IH, check_option_text.
Qed.

Lemma scan_disabled opts : forall st r,
  o_disabled (element (sc_elements (fold_left (check_option values multi) opts st)) r)
  = o_disabled (element (sc_elements st) r).
Proof.
  induction opts as [|o opts IH]; intros st r; simpl; [done|].
  by rewrite IH, check_option_disabled.
Qed.

Lemma scan_other opts : forall st r,
  r ∉ opts ->
  sc_elements (fold_left (check_option values multi) opts st) !! r
  = sc_elements st !! r.
Proof.
  induction opts as [|o opts IH]; intros st r Hnin; simpl; [done|].
  apply not_elem_of_cons in Hnin as [Hne Hnin].
  rewrite IH by exact Hnin.
  by apply check_option_other.
Qed.

Lemma scan_other_element opts st r :
  r ∉ opts ->
  element (sc_elements (fold_left (check_option values multi) opts st)) r
  = element (sc_elements st) r.
Proof. intros Hnin. unfold element. by rewrite scan_other. Qed.

Lemma check_option_hasChecked st o :
  sc_hasChecked (check_option values multi st o)
  = sc_hasChecked st || hits values (sc_elements st) o.
Proof.
  unfold check_option, hits.
  destruct (Js.includes _ _), multi, (sc_hasChecked st); reflexivity.
Qed.

Lemma check_option_selected st o :
  o_selected (element (sc_elements (check_option values multi st o)) o)
  = hits values (sc_elements st) o && (multi || negb (sc_hasChecked st)).
Proof.
  unfold check_option, hits.
  destruct (Js.includes _ _ && _); simpl;
    rewrite element_write_same; reflexivity.
Qed.

Lemma check_option_texts st o :
  sc_texts (check_option values multi st o)
  = sc_texts st
    ++ (if hits values (sc_elements st) o && (multi || negb (sc_hasChecked st))
        then [text_or_empty (o_textContent (element (sc_elements st) o))]
        else []).
Proof.
  unfold check_option, hits.
  destruct (Js.includes _ _ && _); simpl; [done|by rewrite app_nil_r].
Qed.

(** The flag an option ends with: it is hit, and either the select is
    multiple or nothing was checked before it. *)
Lemma scan_selected pre : forall st o post,
  NoDup (pre ++ o :: post) ->
  o_selected (element (sc_elements
     (fold_left (check_option values multi) (pre ++ o :: post) st)) o)
  = hits values (sc_elements st) o
    && (multi || negb (sc_hasChecked st
                       || existsb (hits values (sc_elements st)) pre)).
Proof.
  induction pre as [|a pre IH]; intros st o post Hnd; simpl in *.
  - apply NoDup_cons in Hnd as [Hnin _].
    rewrite scan_other_element by exact Hnin.
    by rewrite orb_false_r, check_option_selected.
  - apply NoDup_cons in Hnd as [_ Hnd].
    rewrite IH by exact Hnd.
    rewrite check_option_hits, check_option_hasChecked.
    rewrite (existsb_pointwise _ (hits values (sc_elements st)))
      by (intros; apply check_option_hits).
    by rewrite orb_assoc.
Qed.

(** The texts pushed are those of the options that end up selected. *)
Lemma scan_texts opts : forall st,
  NoDup opts ->
  sc_texts (fold_left (check_option values multi) opts st)
  = sc_texts st
    ++ map (fun o => text_or_empty (o_textContent (element
              (sc_elements (fold_left (check_option values multi) opts st)) o)))
         (List.filter (fun o => o_selected (element
              (sc_elements (fold_left (check_option values multi) opts st)) o))
            opts).
Proof.
  induction opts as [|a opts IH]; intros st Hnd; simpl.
  - by rewrite app_nil_r.
  - apply NoDup_cons in Hnd as [Hnin Hnd].
    rewrite IH by exact Hnd.
    rewrite (scan_other_element opts _ a) by exact Hnin.
    rewrite check_option_selected, check_option_texts.
    destruct (hits _ _ _ && _); simpl.
    + by rewrite scan_text, check_option_text, <- app_assoc.
    + by rewrite app_nil_r.
Qed.

End Scan.

(** ** [valueChanged] *)

Lemma valueChanged_elements p :
  elements (valueChanged p)
  = sc_elements (fold_left
      (check_option (values_of (value (this p))) (multiple (this p)))
      (childOpts (this p))
      {| sc_elements := elements p; sc_hasChecked := false; sc_texts := [] |}).
Proof. reflexivity. Qed.

Lemma valueChanged_text p :
  text (this (valueChanged p))
  = String.concat ", " (sc_texts (fold_left
      (check_option (values_of (value (this p))) (multiple (this p)))
      (childOpts (this p))
      {| sc_elements := elements p; sc_hasChecked := false; sc_texts := [] |})).
Proof. reflexivity. Qed.

Lemma valueChanged_log p :
  log (valueChanged p)
  = log p ++ [IonChange (text (this (valueChanged p))) (value (this p));
              IonStyle (style_classes (valueChanged p))].
Proof. unfold valueChanged, emitStyle, emit; simpl. by rewrite <- app_assoc. Qed.

Lemma join_text_or_empty sep (l : list (option string)) :
  Js.join sep l = String.concat sep (map text_or_empty l).
Proof. reflexivity. Qed.

(** The text is that of the options the scan left selected. *)
Lemma valueChanged_display_text p :
  NoDup (childOpts (this p)) ->
  text (this (valueChanged p))
  = display_text (elements (valueChanged p)) (childOpts (this (valueChanged p))).
Proof.
  intros Hnd. rewrite valueChanged_text, scan_texts by exact Hnd.
  unfold display_text, selected_opts.
  by rewrite join_text_or_empty, map_map.
Qed.

(** The flag of each option after the scan, by its place in [childOpts]. *)
Lemma valueChanged_selected p pre o post :
  NoDup (childOpts (this p)) ->
  childOpts (this p) = pre ++ o :: post ->
  o_selected (element (elements (valueChanged p)) o)
  = matches (elements p) (value (this p)) o
    && (multiple (this p)
        || negb (existsb (matches (elements p) (value (this p))) pre)).
Proof.
  intros Hnd Hsplit. rewrite valueChanged_elements, Hsplit.
  rewrite Hsplit in Hnd. by rewrite scan_selected.
Qed.

(** A flag that is set on the first hit only leaves at most that one
    element in the filtered list. *)
Lemma filter_first_hit {A} (sel hit : A -> bool) (l : list A) :
  (forall pre o post, l = pre ++ o :: post ->
     sel o = hit o && negb (existsb hit pre)) ->
  List.filter sel l = option_list (List.find hit l).
Proof.
  induction l as [|a l IH]; intros Hsel; simpl; [done|].
  rewrite (Hsel [] a l eq_refl); simpl. rewrite andb_true_r.
  destruct (hit a) eqn:Ha.
  - simpl. f_equal.
    assert (Hall : forall o, In o l -> sel o = false).
    { intros o Hin. apply in_split in Hin as (pre & post & ->).
      rewrite (Hsel (a :: pre) o post eq_refl). simpl. rewrite Ha.
      by rewrite andb_false_r. }
    clear IH Hsel. induction l as [|b l IHl]; simpl; [done|].
    rewrite (Hall b) by (by left). apply IHl.
    intros o Hin. apply Hall. by right.
  - apply IH. intros pre o post ->.
    rewrite (Hsel (a :: pre) o post eq_refl). simpl. by rewrite Ha.
Qed.

Lemma matches_contained_in els v o :
  matches els v o = contained_in (o_value (element els o)) v.
Proof. unfold matches, hits, values_of, contained_in. by destruct v. Qed.

(** C1.  On a change of the value, [valueChanged] scans the child options
    once: an option ends up selected exactly when its value is contained in
    the new value (a value that is not an array counting as a one-element
    list) and, when [multiple] is false, no option before it in document
    order is; every other option ends up not selected; nothing else about
    the elements changes; and [text] becomes the [textContent] of the
    selected options joined by a comma and a space. *)
Theorem valueChanged_reconciles (p : Page) :
  NoDup (childOpts (this p)) ->
  let p' := valueChanged p in
  let v := value (this p) in
  let contained o := contained_in (o_value (element (elements p) o)) v in
  childOpts (this p') = childOpts (this p) /\
  value (this p') = v /\
  (forall pre o post,
     childOpts (this p) = pre ++ o :: post ->
     o_selected (element (elements p') o)
     = contained o && (multiple (this p) || negb (existsb contained pre))) /\
  (forall o,
     o_value (element (elements p') o) = o_value (element (elements p) o) /\
     o_textContent (element (elements p') o)
     = o_textContent (element (elements p) o) /\
     o_disabled (element (elements p') o)
     = o_disabled (element (elements p) o)) /\
  (forall o, o ∉ childOpts (this p) -> elements p' !! o = elements p !! o) /\
  text (this p') = display_text (elements p') (childOpts (this p')).
Proof.
  intros Hnd p' v contained. subst p' v contained.
  split; [reflexivity|]. split; [reflexivity|].
  split.
  { intros pre o post Hsplit.
    rewrite (valueChanged_selected p pre o post Hnd Hsplit).
    rewrite matches_contained_in.
    by rewrite (existsb_pointwise _
                  (fun o => contained_in (o_value (element (elements p) o))
                                         (value (this p))))
      by (intros; apply matches_contained_in). }
  split.
  { intros o. rewrite valueChanged_elements.
    by rewrite scan_value, scan_text, scan_disabled. }
  split.
  { intros o Hnin. rewrite valueChanged_elements. by rewrite scan_other. }
  by apply valueChanged_display_text.
Qed.

Lemma valueChanged_reconciles_witness :
  NoDup (childOpts (this demo_page)) /\
  NoDup (childOpts (this demo_multiple)) /\
  (* a single select holding the value a *)
  o_selected (element (elements (valueChanged demo_page)) 1) = true /\
  o_selected (element (elements (valueChanged demo_page)) 3) = false /\
  text (this (valueChanged demo_page)) = "Apple" /\
  (* a multiple select holding the array of b and a *)
  value (this demo_multiple) = JArray 4 [JString "b"; JString "a"] /\
  o_selected (element (elements (valueChanged demo_multiple)) 1) = true /\
  o_selected (element (elements (valueChanged demo_multiple)) 2) = true /\
  o_selected (element (elements (valueChanged demo_multiple)) 3) = true /\
  text (this (valueChanged demo_multiple)) = "Apple, Banana, Avocado" /\
  (* a multiple select whose array leaves out the value b *)
  o_selected (element (elements
     (valueChanged (set_value (JArray 5 [JString "a"]) demo_multiple))) 2)
  = false.
Proof.
  assert (Hnd : NoDup (childOpts (this demo_page))).
  { apply (bool_decide_unpack _). vm_compute. exact I. }
  assert (Hnd' : NoDup (childOpts (this demo_multiple))) by exact Hnd.
  destruct (valueChanged_reconciles demo_page Hnd)
    as (_ & _ & Hsel & _ & _ & Htext).
  destruct (valueChanged_reconciles demo_multiple Hnd')
    as (_ & _ & Hsel' & _ & _ & Htext').
  destruct (valueChanged_reconciles
              (set_value (JArray 5 [JString "a"]) demo_multiple) Hnd')
    as (_ & _ & Hsel'' & _ & _ & _).
  split; [exact Hnd|]. split; [exact Hnd'|].
  split; [rewrite (Hsel [] 1 [2; 3] eq_refl); vm_compute; reflexivity|].
  split; [rewrite (Hsel [1; 2] 3 [] eq_refl); vm_compute; reflexivity|].
  split; [rewrite Htext; vm_compute; reflexivity|].
  split; [reflexivity|].
  split; [rewrite (Hsel' [] 1 [2; 3] eq_refl); vm_compute; reflexivity|].
  split; [rewrite (Hsel' [1] 2 [3] eq_refl); vm_compute; reflexivity|].
  split; [rewrite (Hsel' [1; 2] 3 [] eq_refl); vm_compute; reflexivity|].
  split; [rewrite Htext'; vm_compute; reflexivity|].
  rewrite (Hsel'' [1] 2 [3] eq_refl). vm_compute. reflexivity.
Defined.

(** C8.  When [multiple] is false, at most one child option is selected
    after [valueChanged], also when several options carry the select's
    value: the selected options are the first option in scan order whose
    value matches, and no other. *)
Theorem valueChanged_single_selection (p : Page) :
  NoDup (childOpts (this p)) ->
  multiple (this p) = false ->
  let p' := valueChanged p in
  selected_opts (elements p') (childOpts (this p'))
  = option_list (List.find (matches (elements p) (value (this p)))
                           (childOpts (this p))) /\
  length (selected_opts (elements p') (childOpts (this p'))) <= 1.
Proof.
  intros Hnd Hsingle p'. subst p'.
  assert (Heq : selected_opts (elements (valueChanged p))
                  (childOpts (this (valueChanged p)))
                = option_list (List.find (matches (elements p) (value (this p)))
                                         (childOpts (this p)))).
  { unfold selected_opts. apply filter_first_hit.
    intros pre o post Hsplit.
    change (childOpts (this (valueChanged p))) with (childOpts (this p)) in Hsplit.
    rewrite (valueChanged_selected p pre o post Hnd Hsplit).
    by rewrite Hsingle. }
  split; [exact Heq|].
  rewrite Heq. destruct (List.find _ _); simpl; lia.
Qed.

Lemma valueChanged_single_selection_witness :
  NoDup (childOpts (this demo_page)) /\
  multiple (this demo_page) = false /\
  existsb (matches (elements demo_page) (value (this demo_page))) [3] = true /\
  selected_opts (elements (valueChanged demo_page))
    (childOpts (this (valueChanged demo_page))) = [1].
Proof.
  assert (Hnd : NoDup (childOpts (this demo_page))).
  { apply (bool_decide_unpack _). vm_compute. exact I. }
  split; [exact Hnd|]. split; [reflexivity|].
  split; [vm_compute; reflexivity|].
  destruct (valueChanged_single_selection demo_page Hnd eq_refl) as [Heq _].
  rewrite Heq. vm_compute. reflexivity.
Defined.

(** C3.  On a change of the value exactly one [ionChange] event is
    emitted; its payload holds the new value and the display text, which is
    the [textContent] of the options now selected joined by a comma and a
    space. *)
Theorem valueChanged_change_notification (p : Page) :
  NoDup (childOpts (this p)) ->
  let p' := valueChanged p in
  (exists c,
     log p' = log p ++ [IonChange (text (this p')) (value (this p')); IonStyle c]) /\
  length (List.filter is_ionChange (log p'))
  = S (length (List.filter is_ionChange (log p))) /\
  value (this p') = value (this p) /\
  text (this p') = display_text (elements p') (childOpts (this p')).
Proof.
  intros Hnd p'. subst p'.
  split; [exists (style_classes (valueChanged p)); exact (valueChanged_log p)|].
  split.
  { rewrite valueChanged_log, List.filter_app, length_app. simpl. lia. }
  split; [reflexivity|].
  by apply valueChanged_display_text.
Qed.

Lemma valueChanged_change_notification_witness :
  NoDup (childOpts (this demo_page)) /\
  List.filter is_ionChange (log (valueChanged demo_page))
  = [IonChange "Apple" (JString "a")].
Proof.
  assert (Hnd : NoDup (childOpts (this demo_page))).
  { apply (bool_decide_unpack _). vm_compute. exact I. }
  split; [exact Hnd|].
  destruct (valueChanged_change_notification demo_page Hnd)
    as ([c Hlog] & _ & _ & Htext).
  rewrite Hlog, Htext. vm_compute. reflexivity.
Defined.

(** ** [hasValue] and [emitStyle] *)

(** C9.  [hasValue()] is true exactly when the value is an array with at
    least one item, or is not an array and is neither null, nor undefined,
    nor the empty string; the number 0 and the boolean false count as
    values. *)
Theorem hasValue_spec (p : Page) :
  (hasValue p = true <->
     (exists r items, value (this p) = JArray r items /\ 0 < length items)
     \/ (Js.isArray (value (this p)) = false
         /\ value (this p) <> JNull
         /\ value (this p) <> JUndefined
         /\ value (this p) <> JString EmptyString)) /\
  hasValue (set_value (JNumber 0) p) = true /\
  hasValue (set_value (JBool false) p) = true.
Proof.
  split; [|split; reflexivity].
  unfold hasValue. destruct (value (this p)) as [| |b|n| |s|r|r items]; simpl.
  all: try (split; [discriminate|];
            intros [(r' & items' & Heq & _)|(_ & Hn & Hu & _)];
            [discriminate|congruence]).
  all: try (split; [intros _; right; repeat split; discriminate|reflexivity]).
  - (* a string *)
    destruct (String.eqb_spec s EmptyString) as [->|Hne]; simpl.
    + split; [discriminate|].
      intros [(r' & items' & Heq & _)|(_ & _ & _ & Hs)];
        [discriminate|congruence].
    + split; [|reflexivity].
      intros _. right. repeat split; try discriminate. congruence.
  - (* an array *)
    split.
    + intros Hlt. left. exists r, items. split; [reflexivity|].
      by apply Nat.ltb_lt.
    + intros [(r' & items' & Heq & Hlt)|(Hna & _)]; [|discriminate].
      injection Heq as -> ->. by apply Nat.ltb_lt.
Qed.

Lemma style_classes_payload (p : Page) : style_payload p (style_classes p).
Proof. unfold style_payload, style_classes. by simplify_map_eq. Qed.

(** C7.  A change of [disabled] and a change of the value each emit one
    [ionStyle] event; its payload has [interactive] and [select] true,
    [has-value] equal to [hasValue()], and [interactive-disabled] and
    [select-disabled] equal to the [disabled] flag. *)
Theorem style_notification (p : Page) :
  (exists c,
     log (disabledChanged p) = log p ++ [IonStyle c]
     /\ style_payload (disabledChanged p) c) /\
  (exists e c,
     log (valueChanged p) = log p ++ [e; IonStyle c]
     /\ is_ionStyle e = false
     /\ style_payload (valueChanged p) c).
Proof.
  split.
  - exists (style_classes p). split; [reflexivity|].
    apply (style_classes_payload p).
  - exists (IonChange (text (this (valueChanged p))) (value (this p))),
           (style_classes (valueChanged p)).
    split; [apply valueChanged_log|]. split; [reflexivity|].
    apply style_classes_payload.
Qed.

(** ** [componentWillLoad] *)

Lemma truthy_falsy v : Js.truthy v = false <-> falsy v.
Proof.
  unfold falsy. destruct v as [| |b|n| |s|r|r items]; simpl.
  - split; [auto|reflexivity].
  - split; [auto|reflexivity].
  - destruct b; split; try discriminate; auto.
    intros [H|[H|[H|[H|[H|H]]]]]; discriminate.
  - destruct (Z.eqb_spec n 0) as [->|Hne]; simpl.
    + split; [auto 10|reflexivity].
    + split; [discriminate|].
      intros [H|[H|[H|[H|[H|H]]]]]; try discriminate. congruence.
  - split; [auto 10|reflexivity].
  - destruct (String.eqb_spec s EmptyString) as [->|Hne]; simpl.
    + split; [auto 10|reflexivity].
    + split; [discriminate|].
      intros [H|[H|[H|[H|[H|H]]]]]; try discriminate. congruence.
  - split; [discriminate|]. intros [H|[H|[H|[H|[H|H]]]]]; discriminate.
  - split; [discriminate|]. intros [H|[H|[H|[H|[H|H]]]]]; discriminate.
Qed.

(** C10.  [componentWillLoad] discards an initial value that is falsy
    (undefined, null, false, 0, NaN or the empty string) and puts the empty
    array in its place when [multiple] is true and undefined otherwise; a
    truthy value, and everything else, stays as it is. *)
Theorem componentWillLoad_normalizes (p : Page) :
  let p' := componentWillLoad p in
  (negb (Js.truthy (value (this p))) = true <-> falsy (value (this p))) /\
  (falsy (value (this p)) ->
     value (this p')
     = (if multiple (this p) then JArray (next_ref p) [] else JUndefined)) /\
  (~ falsy (value (this p)) -> p' = p) /\
  childOpts (this p') = childOpts (this p) /\
  multiple (this p') = multiple (this p) /\
  elements p' = elements p /\
  log p' = log p.
Proof.
  intros p'. subst p'. unfold componentWillLoad.
  pose proof (truthy_falsy (value (this p))) as Hf.
  destruct (Js.truthy (value (this p))) eqn:Ht; simpl.
  - split; [split; [discriminate|intros H; by apply Hf in H]|].
    split; [intros H; by apply Hf in H|].
    repeat split.
  - split; [split; [intros _; by apply Hf|reflexivity]|].
    split; [intros _; by destruct (multiple (this p))|].
    split; [intros Hn; exfalso; apply Hn; by apply Hf|].
    destruct (multiple (this p)) eqn:Hm; simpl; rewrite ?Hm; repeat split.
Qed.

Lemma componentWillLoad_normalizes_witness :
  falsy (JNumber 0) /\ falsy (JBool false) /\ falsy (JString EmptyString) /\
  value (this (componentWillLoad (set_value (JNumber 0) demo_page)))
  = JUndefined /\
  value (this (componentWillLoad
     (set_props false true Alert ∅ "Cancel" "OK"
        (set_value (JString EmptyString) demo_page))))
  = JArray 10 [] /\
  componentWillLoad demo_page = demo_page.
Proof.
  split; [unfold falsy; auto 10|].
  split; [unfold falsy; auto 10|].
  split; [unfold falsy; auto 10|].
  split.
  { apply (componentWillLoad_normalizes (set_value (JNumber 0) demo_page)).
    unfold falsy; simpl; auto 10. }
  split.
  { apply (componentWillLoad_normalizes
             (set_props false true Alert ∅ "Cancel" "OK"
                (set_value (JString EmptyString) demo_page))).
    unfold falsy; simpl; auto 10. }
  apply (componentWillLoad_normalizes demo_page).
  unfold falsy; simpl. intros [H|[H|[H|[H|[H|H]]]]]; discriminate.
Defined.

(** ** Opening and closing the overlay *)

Lemma openPopover_spec ev p :
  overlay_interface (fst (openPopover ev p)) = Popover /\
  overlay (this (snd (openPopover ev p))) = Some (fst (openPopover ev p)) /\
  isExpanded (this (snd (openPopover ev p))) = true /\
  log (snd (openPopover ev p))
  = log p ++ [Create (fst (openPopover ev p)); Present (fst (openPopover ev p))].
Proof.
  repeat split. unfold openPopover, create, present, emit; simpl.
  by rewrite <- app_assoc.
Qed.

Lemma openActionSheet_spec p :
  overlay_interface (fst (openActionSheet p)) = ActionSheet /\
  overlay (this (snd (openActionSheet p))) = Some (fst (openActionSheet p)) /\
  isExpanded (this (snd (openActionSheet p))) = true /\
  log (snd (openActionSheet p))
  = log p ++ [Create (fst (openActionSheet p)); Present (fst (openActionSheet p))].
Proof.
  repeat split. unfold openActionSheet, create, present, emit; simpl.
  by rewrite <- app_assoc.
Qed.

Lemma openAlert_spec p :
  overlay_interface (fst (openAlert p)) = Alert /\
  overlay (this (snd (openAlert p))) = Some (fst (openAlert p)) /\
  isExpanded (this (snd (openAlert p))) = true /\
  log (snd (openAlert p))
  = log p ++ [Create (fst (openAlert p)); Present (fst (openAlert p))].
Proof.
  repeat split. unfold openAlert, create, present, emit; simpl.
  by rewrite <- app_assoc.
Qed.

(** The three ways [open] can go. *)
Lemma open_cases ev p :
  let i := interface (this p) in
  let multi := multiple (this p) in
  match chosen_interface i (passed ev) multi with
  | Popover => open ev p = openPopover ev p
  | ActionSheet => open ev p = openActionSheet p
  | Alert =>
      open ev p
      = openAlert
          (if falls_back i (passed ev) multi
           then emit (ConsoleWarn
                        (if multi then multi_value_warning i
                         else no_event_warning)) p
           else p)
  end.
Proof.
  unfold open.
  destruct (interface (this p)), (multiple (this p)) eqn:Hm, ev;
    simpl; rewrite ?Hm; reflexivity.
Qed.

(** C2.  Every call of [open] opens and returns exactly one overlay: a
    popover when the interface is [popover], an event was passed and
    [multiple] is false; an action sheet when the interface is
    [action-sheet] and [multiple] is false; an alert in every other case.
    A warning is logged exactly when the configured interface is given up
    for the alert. *)
Theorem open_selects_interface (ev : option UIEvent) (p : Page) :
  let i := interface (this p) in
  let multi := multiple (this p) in
  let ov := fst (open ev p) in
  let p' := snd (open ev p) in
  overlay_interface ov = chosen_interface i (passed ev) multi /\
  (overlay_interface ov = Popover
   <-> i = Popover /\ passed ev = true /\ multi = false) /\
  (overlay_interface ov = ActionSheet <-> i = ActionSheet /\ multi = false) /\
  overlay (this p') = Some ov /\
  (falls_back i (passed ev) multi = true
   <-> (i = ActionSheet \/ i = Popover) /\ multi = true
       \/ i = Popover /\ passed ev = false) /\
  (falls_back i (passed ev) multi = true -> overlay_interface ov = Alert) /\
  log p'
  = log p
    ++ (if falls_back i (passed ev) multi
        then [ConsoleWarn (if multi then multi_value_warning i
                           else no_event_warning)]
        else [])
    ++ [Create ov; Present ov].
Proof.
  intros i multi ov p'. subst ov p'.
  pose proof (open_cases ev p) as Hopen. cbv zeta in Hopen.
  fold i multi in Hopen.
  assert (Hkind : overlay_interface (fst (open ev p))
                  = chosen_interface i (passed ev) multi).
  { destruct (chosen_interface i (passed ev) multi); rewrite Hopen.
    - apply openActionSheet_spec.
    - apply openPopover_spec.
    - apply openAlert_spec. }
  split; [exact Hkind|].
  split.
  { rewrite Hkind. destruct i, (passed ev), multi; simpl;
      split; try discriminate; try tauto; intros (? & ? & ?); discriminate. }
  split.
  { rewrite Hkind. destruct i, (passed ev), multi; simpl;
      split; try discriminate; try tauto; intros (? & ?); discriminate. }
  split.
  { destruct (chosen_interface i (passed ev) multi); rewrite Hopen.
    - apply openActionSheet_spec.
    - apply openPopover_spec.
    - apply openAlert_spec. }
  split.
  { destruct i, (passed ev), multi; simpl; split; try discriminate; auto;
      intros [[[H|H] H']|[H H']]; discriminate. }
  split.
  { rewrite Hkind. by destruct i, (passed ev), multi. }
  destruct (chosen_interface i (passed ev) multi) eqn:Hc; rewrite Hopen.
  - replace (falls_back i (passed ev) multi) with false
      by (by destruct i, (passed ev), multi).
    apply openActionSheet_spec.
  - replace (falls_back i (passed ev) multi) with false
      by (by destruct i, (passed ev), multi).
    apply openPopover_spec.
  - destruct (falls_back i (passed ev) multi).
    + destruct (openAlert_spec
        (emit (ConsoleWarn (if multi then multi_value_warning i
                            else no_event_warning)) p))
        as (_ & _ & _ & Hlog).
      rewrite Hlog. simpl. by rewrite <- app_assoc.
    + apply openAlert_spec.
Qed.

(** ** [onSelect] *)

Section OnSelect.

Variable target : nat.

Lemma onSelect_option_frame p o :
  childOpts (this (onSelect_option target p o)) = childOpts (this p) /\
  log (onSelect_option target p o) = log p /\
  elements (onSelect_option target p o) !! target = elements p !! target.
Proof.
  unfold onSelect_option. destruct (Nat.eqb_spec o target) as [->|Hne]; simpl.
  - done.
  - repeat split. by apply lookup_write_other.
Qed.

Lemma onSelect_loop opts : forall p,
  let p' := fold_left (onSelect_option target) opts p in
  childOpts (this p') = childOpts (this p) /\
  log p' = log p /\
  elements p' !! target = elements p !! target /\
  (forall o, o ∉ opts -> elements p' !! o = elements p !! o) /\
  (forall o, o ∈ opts -> o <> target ->
     o_selected (element (elements p') o) = false) /\
  value (this p')
  = (if bool_decide (target ∈ opts)
     then o_value (element (elements p) target) else value (this p)).
Proof.
  induction opts as [|a opts IH]; intros p; simpl.
  - repeat split; try done. intros o Hin. by apply elem_of_nil in Hin.
  - destruct (IH (onSelect_option target p a)) as (Hc & Hl & Ht & Ho & Hs & Hv).
    destruct (onSelect_option_frame p a) as (Hc1 & Hl1 & Ht1).
    split; [by rewrite Hc|]. split; [by rewrite Hl|].
    split; [by rewrite Ht|].
    split.
    { intros o Hnin. apply not_elem_of_cons in Hnin as [Hne Hnin].
      rewrite (Ho o Hnin). unfold onSelect_option.
      destruct (Nat.eqb a target); simpl; [done|].
      apply lookup_write_other. congruence. }
    split.
    { intros o Hin Hne. destruct (decide (o ∈ opts)) as [Hin'|Hnin].
      - by apply Hs.
      - apply elem_of_cons in Hin as [->|Hin]; [|done].
        unfold element. rewrite (Ho a Hnin). unfold onSelect_option.
        destruct (Nat.eqb_spec a target) as [Heq|_]; [done|]. simpl.
        fold (element (write_selected a false (elements p)) a).
        by rewrite element_write_same. }
    rewrite Hv. unfold element. rewrite Ht1.
    destruct (decide (a = target)) as [->|Hne].
    + rewrite (bool_decide_eq_true_2 (target ∈ target :: opts))
        by apply list_elem_of_here.
      destruct (bool_decide (target ∈ opts)); [done|].
      unfold onSelect_option. by rewrite Nat.eqb_refl.
    + destruct (bool_decide_reflect (target ∈ opts)) as [Hin|Hnin].
      * rewrite bool_decide_eq_true_2; [done|]. by apply list_elem_of_further.
      * rewrite bool_decide_eq_false_2.
        -- unfold onSelect_option.
           destruct (Nat.eqb_spec a target) as [Heq|_]; [done|reflexivity].
        -- intros Hin. apply elem_of_cons in Hin as [Heq|Hin]; congruence.
Qed.

End OnSelect.

(** C5.  When an [ionSelect] event arrives from one of the projected child
    options, [onSelect] sets the value of the component to the value of
    that option and sets [selected] to false on every other child option;
    the option itself, the options outside [childOpts] and the log are
    left alone. *)
Theorem onSelect_reconciles (target : nat) (p : Page) :
  target ∈ childOpts (this p) ->
  let p' := onSelect target p in
  value (this p') = o_value (element (elements p) target) /\
  (forall o, o ∈ childOpts (this p) -> o <> target ->
     o_selected (element (elements p') o) = false) /\
  element (elements p') target = element (elements p) target /\
  (forall o, o ∉ childOpts (this p) -> elements p' !! o = elements p !! o) /\
  childOpts (this p') = childOpts (this p) /\
  log p' = log p.
Proof.
  intros Hin p'. subst p'. unfold onSelect.
  destruct (onSelect_loop target (childOpts (this p)) p)
    as (Hc & Hl & Ht & Ho & Hs & Hv).
  split; [by rewrite Hv, bool_decide_eq_true_2|].
  split; [exact Hs|].
  split; [unfold element; by rewrite Ht|].
  split; [exact Ho|]. by split.
Qed.

Lemma onSelect_reconciles_witness :
  2 ∈ childOpts (this demo_page) /\
  value (this (onSelect 2 demo_page)) = JString "b" /\
  o_selected (element (elements (onSelect 2 demo_page)) 3) = false.
Proof.
  assert (Hin : 2 ∈ childOpts (this demo_page)).
  { apply (bool_decide_unpack _). vm_compute. exact I. }
  destruct (onSelect_reconciles 2 demo_page Hin) as (Hv & Hs & _).
  split; [exact Hin|]. split; [rewrite Hv; vm_compute; reflexivity|].
  apply Hs; [|discriminate].
  apply (bool_decide_unpack _). vm_compute. exact I.
Defined.

(** ** [optLoad] *)

Lemma includes_selected_values (els : gmap nat SelectOption)
    (opts : list nat) (target : nat) :
  target ∈ opts ->
  o_selected (element els target) = true ->
  Js.includes (selected_values els opts) (o_value (element els target)) = true.
Proof.
  intros Hin Hsel. unfold selected_values.
  apply (includes_elem_of (fun o => o_value (element els o))).
  apply list_elem_of_In, List.filter_In. split; [|exact Hsel].
  by apply list_elem_of_In.
Qed.

(** C6, as the code has it.  On each [ionSelectOptionDidLoad] or
    [ionSelectOptionDidUnload] event the option list becomes the
    [ion-select-option] descendants of the moment.  When [multiple] is true
    the value becomes a new array: the values of the descendants whose
    [selected] flag is set, followed by at most one more item, the value of
    the event's target, which is appended only when the target is selected,
    is not among the descendants, and its value is not among those values.
    For a target among the descendants the value is that list itself. *)
Theorem optLoad_projects (target : nat) (p : Page) :
  let p' := optLoad target p in
  let chosen := selected_values (elements p) (descendants p) in
  let tv := o_value (element (elements p) target) in
  childOpts (this p') = descendants p /\
  (multiple (this p) = true ->
   exists extra,
     value (this p') = JArray (next_ref p) (chosen ++ extra) /\
     (extra = [] \/ extra = [tv]) /\
     (extra <> [] ->
        (target ∉ descendants p)
        /\ o_selected (element (elements p) target) = true
        /\ Js.includes chosen tv = false) /\
     (target ∈ descendants p -> extra = [])).
Proof.
  intros p' chosen tv. subst p'.
  split.
  { unfold optLoad. simpl.
    repeat match goal with |- context [if ?b then _ else _] => destruct b end;
      reflexivity. }
  intros Hm.
  assert (Hpush : Js.includes chosen tv = false ->
                  o_selected (element (elements p) target) = true ->
                  target ∉ descendants p).
  { intros Hinc Hsel Hin.
    pose proof (includes_selected_values _ _ _ Hin Hsel) as Hinc'.
    fold chosen tv in Hinc'. congruence. }
  unfold optLoad. simpl. rewrite Hm. simpl.
  fold chosen tv.
  destruct (Js.includes chosen tv) eqn:Hinc; simpl.
  { exists []. rewrite app_nil_r. repeat split; try done; auto. }
  destruct (Js.strictEquals tv (JArray (next_ref p) chosen)) eqn:Heq; simpl.
  { exists []. rewrite app_nil_r. repeat split; try done; auto. }
  destruct (o_selected (element (elements p) target)) eqn:Hsel; simpl.
  - exists [tv]. repeat split; try done; auto.
    intros Hin. exfalso. by apply (Hpush eq_refl eq_refl).
  - exists []. rewrite app_nil_r. repeat split; try done; auto.
Qed.

Lemma optLoad_projects_witness :
  multiple (this demo_multiple) = true /\
  3 ∈ descendants demo_multiple /\
  value (this (optLoad 3 demo_multiple)) = JArray 10 [JString "b"; JString "a"].
Proof.
  destruct (optLoad_projects 3 demo_multiple) as [_ Hv].
  destruct (Hv eq_refl) as (extra & Hval & _ & _ & Hin).
  assert (H3 : 3 ∈ descendants demo_multiple).
  { apply (bool_decide_unpack _). vm_compute. exact I. }
  split; [reflexivity|]. split; [exact H3|].
  rewrite Hval, (Hin H3). vm_compute. reflexivity.
Defined.

(** C6 as stated fails: after the unload event of an option that is
    selected and no longer a descendant, the value holds that option's
    value beside the values of the selected descendants. *)
Lemma optLoad_keeps_unloaded_value :
  multiple (this detached_page) = true /\
  childOpts (this (optLoad 3 detached_page)) = [1; 2] /\
  selected_values (elements detached_page) (descendants detached_page)
  = [JString "b"] /\
  array_items (value (this (optLoad 3 detached_page)))
  = [JString "b"; JString "a"].
Proof. vm_compute. repeat split. Qed.

(** ** The overlay from opening to closing *)

Lemma close_open_overlay p ov :
  overlay (this p) = Some ov ->
  fst (close p) = ResolvesAsDismissOf ov /\
  overlay (this (snd (close p))) = None /\
  isExpanded (this (snd (close p))) = false /\
  log (snd (close p)) = log p ++ [Dismiss ov] /\
  value (this (snd (close p))) = value (this p) /\
  childOpts (this (snd (close p))) = childOpts (this p) /\
  text (this (snd (close p))) = text (this p) /\
  elements (snd (close p)) = elements p.
Proof. intros Hov. unfold close. rewrite Hov. simpl. repeat split. Qed.

Lemma close_no_overlay p :
  overlay (this p) = None -> close p = (Resolves false, p).
Proof. intros Hov. unfold close. by rewrite Hov. Qed.





(** ** What holds between the callbacks *)

Lemma onSelect_frame target opts : forall p,
  childOpts (this (fold_left (onSelect_option target) opts p))
  = childOpts (this p) /\
  descendants (fold_left (onSelect_option target) opts p) = descendants p.
Proof.
  induction opts as [|a opts IH]; intros p; simpl; [done|].
  destruct (IH (onSelect_option target p a)) as [-> ->].
  unfold onSelect_option. by destruct (Nat.eqb a target).
Qed.

Lemma open_frame ev p :
  childOpts (this (snd (open ev p))) = childOpts (this p) /\
  descendants (snd (open ev p)) = descendants p.
Proof.
  pose proof (open_cases ev p) as Hopen. cbv zeta in Hopen.
  destruct (chosen_interface _ _ _); rewrite Hopen; try done.
  by destruct (falls_back _ _ _).
Qed.

Lemma optLoad_frame target p :
  childOpts (this (optLoad target p)) = descendants p /\
  descendants (optLoad target p) = descendants p.
Proof.
  unfold optLoad. simpl.
  repeat match goal with |- context [if ?b then _ else _] => destruct b end;
    done.
Qed.

(** Each step keeps the option list free of repetitions. *)
Lemma step_well_formed p q : step p q -> well_formed p -> well_formed q.
Proof.
  intros Hstep [Hc Hd]. unfold well_formed.
  destruct Hstep as [p|p|target p|target p|p|ev p|p|h arg p|v p
                    |dis multi i io cancel ok p|els ds lbl p Hds].
  - done.
  - done.
  - destruct (optLoad_frame target p) as [-> ->]. done.
  - unfold onSelect.
    destruct (onSelect_frame target (childOpts (this p)) p) as [-> ->]. done.
  - unfold componentWillLoad.
    destruct (negb _); [|done]. by destruct (multiple (this p)).
  - destruct (open_frame ev p) as [-> ->]. done.
  - unfold close. by destruct (overlay (this p)).
  - destruct h; simpl; try done.
    unfold close; simpl. by destruct (overlay (this p)).
  - done.
  - done.
  - done.
Qed.

(** X21.  The hypothesis of the theorems on [valueChanged] holds of every
    page the component can be in: [childOpts] never lists an element
    twice. *)
Lemma reachable_well_formed p : reachable p -> well_formed p.
Proof.
  induction 1 as [p (Hc & _ & _ & _ & _ & Hd)|p q _ IH Hstep].
  - split; [rewrite Hc; constructor|exact Hd].
  - by apply (step_well_formed p q).
Qed.

(** * Further properties of the code *)

(** ** Opening and closing, composed *)

(** What [open] leaves of the page: the component with the overlay stored
    and [isExpanded] set, one reference taken, the document untouched. *)
Lemma open_result ev p :
  this (snd (open ev p))
  = this (set_isExpanded true (set_overlay (Some (fst (open ev p))) p)) /\
  elements (snd (open ev p)) = elements p /\
  ov_ref (fst (open ev p)) = next_ref p /\
  next_ref (snd (open ev p)) = S (next_ref p) /\
  exists warnings,
    log (snd (open ev p))
    = log p ++ map ConsoleWarn warnings
      ++ [Create (fst (open ev p)); Present (fst (open ev p))].
Proof.
  pose proof (open_cases ev p) as Hopen. cbv zeta in Hopen.
  destruct (chosen_interface _ _ _); rewrite Hopen.
  - repeat split. exists []. apply openActionSheet_spec.
  - repeat split. exists []. apply openPopover_spec.
  - destruct (falls_back _ _ _).
    + repeat split. eexists [_].
      match goal with |- context [openAlert ?q] =>
        destruct (openAlert_spec q) as (_ & _ & _ & Hlog) end.
      rewrite Hlog. simpl. by rewrite <- app_assoc.
    + repeat split. exists []. apply openAlert_spec.
Qed.

Lemma logged_since_app p q l :
  log q = log p ++ l -> logged_since p q = l.
Proof. intros Hlog. unfold logged_since. by rewrite Hlog, drop_app_length. Qed.

Lemma filter_dismiss_warnings (ws : list string) :
  List.filter is_dismiss (map ConsoleWarn ws) = [].
Proof. induction ws as [|w ws IH]; simpl; [done|exact IH]. Qed.

(** X1.  [close] after [open] dismisses exactly the overlay [open]
    returned and resolves to whatever the [dismiss()] of that overlay
    resolves to; it leaves no overlay stored and the select not expanded;
    the value, the option list and the option elements are those from
    before [open]. *)
Theorem open_then_close (ev : option UIEvent) (p : Page) :
  let ov := fst (open ev p) in
  let p1 := snd (open ev p) in
  let p2 := snd (close p1) in
  fst (close p1) = ResolvesAsDismissOf ov /\
  log p2 = log p1 ++ [Dismiss ov] /\
  List.filter is_dismiss (logged_since p p2) = [Dismiss ov] /\
  overlay (this p2) = None /\
  isExpanded (this p2) = false /\
  value (this p2) = value (this p) /\
  childOpts (this p2) = childOpts (this p) /\
  elements p2 = elements p.
Proof.
  intros ov p1 p2. subst ov p1 p2.
  destruct (open_result ev p) as (Hthis & Hels & _ & _ & ws & Hlog).
  assert (Hov : overlay (this (snd (open ev p))) = Some (fst (open ev p)))
    by (by rewrite Hthis).
  destruct (close_open_overlay _ _ Hov)
    as (Hr & Ho & He & Hl & Hv & Hc & _ & Hels').
  split; [exact Hr|]. split; [exact Hl|].
  split.
  { rewrite (logged_since_app p _
       (map ConsoleWarn ws ++ [Create (fst (open ev p));
                               Present (fst (open ev p));
                               Dismiss (fst (open ev p))])).
    - rewrite List.filter_app, filter_dismiss_warnings. reflexivity.
    - rewrite Hl, Hlog. by rewrite <- !app_assoc. }
  split; [exact Ho|]. split; [exact He|].
  split; [by rewrite Hv, Hthis|]. split; [by rewrite Hc, Hthis|].
  by rewrite Hels'.
Qed.

(** X2.  A second [close] finds nothing to close: it resolves to false and
    changes nothing, so an overlay is dismissed at most once. *)
Theorem close_twice (p : Page) :
  close (snd (close p)) = (Resolves false, snd (close p)) /\
  length (List.filter is_dismiss (logged_since p (snd (close (snd (close p))))))
  <= 1.
Proof.
  unfold close.
  destruct (overlay (this p)) as [ov|] eqn:Hov; simpl.
  - split; [reflexivity|].
    rewrite (logged_since_app p _ [Dismiss ov]) by reflexivity. simpl. lia.
  - rewrite Hov. split; [reflexivity|].
    rewrite (logged_since_app p _ []) by (by rewrite app_nil_r). simpl. lia.
Qed.

(** X3.  [open] does not look at the overlay already stored.  Opened twice,
    the select holds the second overlay only; a later [close] dismisses
    that one, and the first, a different object, is never dismissed by the
    component. *)
Theorem open_twice_forgets_first (ev ev' : option UIEvent) (p : Page) :
  let ov1 := fst (open ev p) in
  let p1 := snd (open ev p) in
  let ov2 := fst (open ev' p1) in
  let p2 := snd (open ev' p1) in
  ov_ref ov1 <> ov_ref ov2 /\
  overlay (this p2) = Some ov2 /\
  List.filter is_create (logged_since p p2) = [Create ov1; Create ov2] /\
  List.filter is_dismiss (logged_since p (snd (close p2))) = [Dismiss ov2] /\
  close (snd (close p2)) = (Resolves false, snd (close p2)).
Proof.
  intros ov1 p1 ov2 p2. subst ov1 p1 ov2 p2.
  destruct (open_result ev p) as (Hthis1 & _ & Href1 & Hnext1 & ws1 & Hlog1).
  destruct (open_result ev' (snd (open ev p)))
    as (Hthis2 & _ & Href2 & _ & ws2 & Hlog2).
  set (ov1 := fst (open ev p)) in *. set (p1 := snd (open ev p)) in *.
  set (ov2 := fst (open ev' p1)) in *. set (p2 := snd (open ev' p1)) in *.
  assert (Hov : overlay (this p2) = Some ov2) by (by rewrite Hthis2).
  destruct (close_open_overlay _ _ Hov) as (_ & Ho & _ & Hl & _).
  split; [rewrite Href1, Href2, Hnext1; lia|].
  split; [exact Hov|].
  assert (Hfw : forall ws, List.filter is_create (map ConsoleWarn ws) = []).
  { induction ws as [|w ws IH]; simpl; [done|exact IH]. }
  split.
  { rewrite (logged_since_app p p2
       (map ConsoleWarn ws1 ++ [Create ov1; Present ov1]
        ++ map ConsoleWarn ws2 ++ [Create ov2; Present ov2])).
    - rewrite !List.filter_app, !Hfw. reflexivity.
    - rewrite Hlog2, Hlog1. by rewrite <- !app_assoc. }
  split.
  { rewrite (logged_since_app p _
       (map ConsoleWarn ws1 ++ [Create ov1; Present ov1]
        ++ map ConsoleWarn ws2 ++ [Create ov2; Present ov2; Dismiss ov2])).
    - rewrite !List.filter_app, !filter_dismiss_warnings. reflexivity.
    - rewrite Hl, Hlog2, Hlog1. by rewrite <- !app_assoc. }
  apply close_no_overlay. exact Ho.
Qed.

(** ** What the callbacks keep *)

Lemma onSelect_this target opts : forall p,
  this (fold_left (onSelect_option target) opts p)
  = this (set_value (value (this (fold_left (onSelect_option target) opts p))) p).
Proof.
  induction opts as [|a opts IH]; intros p; simpl.
  - by destruct (this p).
  - rewrite IH. unfold onSelect_option. by destruct (Nat.eqb a target).
Qed.

Lemma onSelect_same_but_selected target opts : forall p,
  same_but_selected (elements p)
    (elements (fold_left (onSelect_option target) opts p)).
Proof.
  induction opts as [|a opts IH]; intros p r; simpl; [done|].
  destruct (IH (onSelect_option target p a) r) as (-> & -> & ->).
  unfold onSelect_option. destruct (Nat.eqb a target); simpl; [done|].
  by rewrite element_write_value, element_write_text, element_write_disabled.
Qed.

Lemma write_same_but_selected r b els :
  same_but_selected els (write_selected r b els).
Proof.
  intros r'.
  by rewrite element_write_value, element_write_text, element_write_disabled.
Qed.

Lemma same_but_selected_refl els : same_but_selected els els.
Proof. by intros r. Qed.

Lemma close_this p :
  elements (snd (close p)) = elements p /\
  descendants (snd (close p)) = descendants p /\
  value (this (snd (close p))) = value (this p) /\
  childOpts (this (snd (close p))) = childOpts (this p) /\
  overlay (this (snd (close p))) = None /\
  (isExpanded (this (snd (close p))) = false \/ snd (close p) = p).
Proof.
  unfold close. destruct (overlay (this p)) eqn:Hov; simpl.
  - repeat split. by left.
  - repeat split; [exact Hov|by right].
Qed.

(** X4.  The component writes nothing but [selected] on its option
    elements: whatever callback or method runs, every element keeps its
    value, its text and its disabled flag, and the list of descendants is
    left as it is. *)
Theorem callbacks_write_only_selected (p q : Page) :
  callback p q ->
  same_but_selected (elements p) (elements q) /\
  descendants q = descendants p.
Proof.
  intros Hcb.
  destruct Hcb as [p|p|target p|target p|p|ev p|p|h arg p].
  - (* valueChanged *)
    split; [|reflexivity]. intros r. rewrite valueChanged_elements.
    by rewrite scan_value, scan_text, scan_disabled.
  - (* disabledChanged *)
    split; [apply same_but_selected_refl|reflexivity].
  - (* optLoad *)
    split; [|apply optLoad_frame].
    unfold optLoad. simpl.
    repeat match goal with |- context [if ?b then _ else _] => destruct b end;
      simpl; first [apply write_same_but_selected|apply same_but_selected_refl].
  - (* onSelect *)
    split; [apply onSelect_same_but_selected|apply onSelect_frame].
  - (* componentWillLoad *)
    unfold componentWillLoad.
    destruct (negb _); [|split; [apply same_but_selected_refl|reflexivity]].
    destruct (multiple (this p));
      (split; [apply same_but_selected_refl|reflexivity]).
  - (* open *)
    destruct (open_result ev p) as (_ & -> & _).
    split; [apply same_but_selected_refl|apply open_frame].
  - (* close *)
    destruct (close_this p) as (-> & -> & _).
    split; [apply same_but_selected_refl|reflexivity].
  - (* the handlers *)
    destruct h; simpl; try (split; [apply same_but_selected_refl|reflexivity]).
    match goal with |- context [close ?q] =>
      destruct (close_this q) as (-> & -> & _) end.
    split; [apply same_but_selected_refl|reflexivity].
Qed.

Lemma callbacks_write_only_selected_witness :
  callback demo_page (valueChanged demo_page) /\
  o_value (element (elements (valueChanged demo_page)) 3) = JString "a" /\
  o_selected (element (elements demo_page) 3) = true /\
  o_selected (element (elements (valueChanged demo_page)) 3) = false.
Proof.
  assert (Hcb : callback demo_page (valueChanged demo_page)) by constructor.
  split; [exact Hcb|].
  destruct (callbacks_write_only_selected _ _ Hcb) as [Hsame _].
  destruct (Hsame 3) as (Hv & _ & _).
  split; [rewrite Hv; vm_compute; reflexivity|].
  split; vm_compute; reflexivity.
Defined.

(** ** The overlay and [isExpanded] *)




Lemma new_page_initial : initial new_page.
Proof.
  repeat split. apply (bool_decide_unpack _). vm_compute. exact I.
Qed.


(** ** [valueChanged], run again and run after a choice *)

Lemma SelectOption_eq (a b : SelectOption) :
  o_value a = o_value b -> o_selected a = o_selected b ->
  o_textContent a = o_textContent b -> o_disabled a = o_disabled b ->
  a = b.
Proof. destruct a, b; simpl; by intros -> -> -> ->. Qed.

Lemma check_option_written values multi st o r :
  r = o \/ is_Some (sc_elements st !! r) ->
  is_Some (sc_elements (check_option values multi st o) !! r).
Proof.
  intros Hr. unfold check_option, write_selected.
  destruct (_ && _); simpl; rewrite lookup_insert_is_Some;
    destruct (decide (o = r)); destruct Hr; subst; auto.
Qed.

Lemma scan_written values multi opts : forall st r,
  r ∈ opts \/ is_Some (sc_elements st !! r) ->
  is_Some (sc_elements (fold_left (check_option values multi) opts st) !! r).
Proof.
  induction opts as [|o opts IH]; intros st r Hr; simpl.
  - destruct Hr as [Hin|Hs]; [by apply elem_of_nil in Hin|exact Hs].
  - apply IH. destruct Hr as [Hin|Hs].
    + apply elem_of_cons in Hin as [->|Hin]; [|by left].
      right. apply check_option_written. by left.
    + right. apply check_option_written. by right.
Qed.

Lemma element_lookup (els : gmap nat SelectOption) r :
  is_Some (els !! r) -> els !! r = Some (element els r).
Proof. intros [x Hx]. unfold element. by rewrite Hx. Qed.

Lemma matches_same_values els els' v o :
  same_but_selected els els' -> matches els' v o = matches els v o.
Proof.
  intros Hsame. unfold matches, hits. by destruct (Hsame o) as (-> & _).
Qed.

Lemma valueChanged_same_but_selected p :
  same_but_selected (elements p) (elements (valueChanged p)).
Proof.
  intros r. rewrite valueChanged_elements.
  by rewrite scan_value, scan_text, scan_disabled.
Qed.

(** X6.  [valueChanged] is idempotent: run a second time it leaves the
    option elements and the component as the first run left them, and it
    emits the same two events again. *)
Theorem valueChanged_idempotent (p : Page) :
  NoDup (childOpts (this p)) ->
  let p1 := valueChanged p in
  let p2 := valueChanged p1 in
  elements p2 = elements p1 /\
  this p2 = this p1 /\
  logged_since p1 p2 = logged_since p p1.
Proof.
  intros Hnd p1 p2. subst p1 p2.
  assert (Hnd1 : NoDup (childOpts (this (valueChanged p)))) by exact Hnd.
  assert (Hels : elements (valueChanged (valueChanged p))
                 = elements (valueChanged p)).
  { apply map_eq. intros r.
    destruct (decide (r ∈ childOpts (this p))) as [Hin|Hnin].
    - assert (Hs1 : is_Some (elements (valueChanged p) !! r)).
      { rewrite valueChanged_elements. apply scan_written. by left. }
      assert (Hs2 : is_Some (elements (valueChanged (valueChanged p)) !! r)).
      { rewrite valueChanged_elements. apply scan_written. by left. }
      rewrite (element_lookup _ _ Hs1), (element_lookup _ _ Hs2). f_equal.
      destruct (valueChanged_same_but_selected (valueChanged p) r)
        as (Hv & Ht & Hd).
      apply SelectOption_eq; try assumption.
      apply list_elem_of_split in Hin as (pre & post & Hsplit).
      rewrite (valueChanged_selected (valueChanged p) pre r post Hnd1 Hsplit).
      rewrite (valueChanged_selected p pre r post Hnd Hsplit).
      change (value (this (valueChanged p))) with (value (this p)).
      change (multiple (this (valueChanged p))) with (multiple (this p)).
      rewrite (matches_same_values _ _ _ _ (valueChanged_same_but_selected p)).
      by rewrite (existsb_pointwise _ (matches (elements p) (value (this p))))
        by (intros; apply matches_same_values, valueChanged_same_but_selected).
    - rewrite (valueChanged_elements (valueChanged p)).
      by rewrite scan_other. }
  assert (Htext : text (this (valueChanged (valueChanged p)))
                  = text (this (valueChanged p))).
  { rewrite (valueChanged_display_text (valueChanged p) Hnd1), Hels.
    by rewrite (valueChanged_display_text p Hnd). }
  assert (Hthis : this (valueChanged (valueChanged p)) = this (valueChanged p)).
  { change (this (valueChanged (valueChanged p)))
      with (this (set_text (text (this (valueChanged (valueChanged p))))
                    (valueChanged p))).
    by rewrite Htext. }
  split; [exact Hels|]. split; [exact Hthis|].
  rewrite (logged_since_app _ _ _ (valueChanged_log (valueChanged p))).
  rewrite (logged_since_app _ _ _ (valueChanged_log p)).
  unfold style_classes, hasValue. by rewrite Htext, Hthis.
Qed.

Lemma valueChanged_idempotent_witness :
  NoDup (childOpts (this demo_page)) /\
  selected_opts (elements (valueChanged (valueChanged demo_page))) [1; 2; 3]
  = [1].
Proof.
  assert (Hnd : NoDup (childOpts (this demo_page))).
  { apply (bool_decide_unpack _). vm_compute. exact I. }
  split; [exact Hnd|].
  destruct (valueChanged_idempotent demo_page Hnd) as (Hels & _).
  rewrite Hels. vm_compute. reflexivity.
Defined.

Lemma find_first_hit {A} (f : A -> bool) (pre post : list A) (x : A) :
  existsb f pre = false -> f x = true ->
  List.find f (pre ++ x :: post) = Some x.
Proof.
  intros Hpre Hx. induction pre as [|a pre IH]; simpl in *.
  - by rewrite Hx.
  - apply orb_false_iff in Hpre as [-> Hpre]. by apply IH.
Qed.

(** X7.  A choice followed by the value watcher: when [multiple] is false,
    the chosen option's value is not an array and no option before it
    carries that value, [onSelect] and then [valueChanged] leave the chosen
    option as the only selected one, with its value as the value, its text
    as the text, and one [ionChange] carrying both. *)
Theorem choice_then_watcher (target : nat) (p : Page) (pre post : list nat) :
  NoDup (childOpts (this p)) ->
  childOpts (this p) = pre ++ target :: post ->
  multiple (this p) = false ->
  Js.isArray (o_value (element (elements p) target)) = false ->
  existsb (matches (elements p) (o_value (element (elements p) target))) pre
  = false ->
  let tv := o_value (element (elements p) target) in
  let shown := text_or_empty (o_textContent (element (elements p) target)) in
  let q := valueChanged (onSelect target p) in
  selected_opts (elements q) (childOpts (this q)) = [target] /\
  value (this q) = tv /\
  text (this q) = shown /\
  List.filter is_ionChange (logged_since p q) = [IonChange shown tv].
Proof.
  intros Hnd Hsplit Hsingle Harr Hpre tv shown q.
  assert (Hin : target ∈ childOpts (this p))
    by (rewrite Hsplit; apply elem_of_app; right; apply list_elem_of_here).
  destruct (onSelect_loop target (childOpts (this p)) p)
    as (Hc & Hl & _ & _ & _ & Hv).
  rewrite bool_decide_eq_true_2 in Hv by exact Hin.
  fold (onSelect target p) in Hc, Hl, Hv. fold tv in Hv.
  pose proof (onSelect_same_but_selected target (childOpts (this p)) p) as Hsame.
  fold (onSelect target p) in Hsame.
  assert (Hm : multiple (this (onSelect target p)) = false).
  { unfold onSelect. by rewrite onSelect_this. }
  assert (Hnd' : NoDup (childOpts (this (onSelect target p))))
    by (by rewrite Hc).
  assert (Hhit : matches (elements p) tv target = true).
  { unfold matches, hits, values_of, tv. rewrite Harr. simpl.
    by rewrite sameValueZero_refl. }
  assert (Hsel : selected_opts (elements q) (childOpts (this q)) = [target]).
  { unfold selected_opts.
    rewrite (filter_first_hit _ (matches (elements p) tv)).
    - change (childOpts (this q)) with (childOpts (this (onSelect target p))).
      by rewrite Hc, Hsplit, (find_first_hit _ pre post target).
    - intros pre' o post' Hsplit'.
      change (childOpts (this q)) with (childOpts (this (onSelect target p)))
        in Hsplit'.
      subst q.
      rewrite (valueChanged_selected _ pre' o post' Hnd' Hsplit'), Hm, Hv.
      rewrite (matches_same_values _ _ _ _ Hsame). simpl.
      by rewrite (existsb_pointwise _ (matches (elements p) tv))
        by (intros; by apply matches_same_values). }
  assert (Htext : text (this q) = shown).
  { subst q. rewrite (valueChanged_display_text _ Hnd').
    unfold display_text. fold (valueChanged (onSelect target p)).
    unfold selected_opts in *. rewrite Hsel.
    change (text_or_empty (o_textContent
              (element (elements (valueChanged (onSelect target p))) target))
            = shown).
    destruct (valueChanged_same_but_selected (onSelect target p) target)
      as (_ & -> & _).
    by destruct (Hsame target) as (_ & -> & _). }
  split; [exact Hsel|]. split; [exact Hv|]. split; [exact Htext|].
  subst q.
  rewrite (logged_since_app p _
     [IonChange (text (this (valueChanged (onSelect target p)))) tv;
      IonStyle (style_classes (valueChanged (onSelect target p)))]).
  - rewrite Htext. reflexivity.
  - rewrite valueChanged_log, Hl, Hv. reflexivity.
Qed.

Lemma choice_then_watcher_witness :
  selected_opts (elements (valueChanged (onSelect 2 demo_page))) [1; 2; 3]
  = [2]
  /\ text (this (valueChanged (onSelect 2 demo_page))) = "Banana".
Proof.
  assert (Hnd : NoDup (childOpts (this demo_page))).
  { apply (bool_decide_unpack _). vm_compute. exact I. }
  destruct (choice_then_watcher 2 demo_page [1] [3] Hnd eq_refl eq_refl
              eq_refl eq_refl) as (Hsel & _ & Htext & _).
  split; [exact Hsel|exact Htext].
Defined.

Lemma filter_none {A} (f : A -> bool) (l : list A) :
  (forall x, x ∈ l -> f x = false) -> List.filter f l = [].
Proof.
  induction l as [|a l IH]; intros Hall; simpl; [done|].
  rewrite Hall by apply list_elem_of_here.
  apply IH. intros x Hin. apply Hall. by apply list_elem_of_further.
Qed.

(** X8.  An [ionSelect] event whose target is not one of [childOpts]
    deselects every child option and leaves the value as it was. *)
Theorem onSelect_foreign_target (target : nat) (p : Page) :
  target ∉ childOpts (this p) ->
  let p' := onSelect target p in
  value (this p') = value (this p) /\
  selected_opts (elements p') (childOpts (this p')) = [] /\
  log p' = log p.
Proof.
  intros Hnin p'. subst p'. unfold onSelect.
  destruct (onSelect_loop target (childOpts (this p)) p)
    as (Hc & Hl & _ & _ & Hs & Hv).
  split; [by rewrite Hv, bool_decide_eq_false_2|].
  split; [|exact Hl].
  rewrite Hc. unfold selected_opts. apply filter_none.
  intros o Hin. apply Hs; [exact Hin|]. intros ->. by apply Hnin.
Qed.

Lemma onSelect_foreign_target_witness :
  (9 ∉ childOpts (this demo_page)) /\
  value (this (onSelect 9 demo_page)) = JString "a" /\
  selected_opts (elements (onSelect 9 demo_page)) [1; 2; 3] = [].
Proof.
  assert (Hnin : 9 ∉ childOpts (this demo_page)).
  { apply (bool_decide_unpack _). vm_compute. exact I. }
  destruct (onSelect_foreign_target 9 demo_page Hnin) as (Hv & Hs & _).
  split; [exact Hnin|]. split; [exact Hv|exact Hs].
Defined.

(** ** [optLoad], beyond the option list *)

Lemma strictEquals_sameValueZero a b :
  Js.strictEquals a b = true -> Js.sameValueZero b a = true.
Proof.
  destruct a, b; simpl; try discriminate; try reflexivity.
  - intros H. apply Bool.eqb_prop in H. subst. apply Bool.eqb_reflx.
  - intros H. apply Z.eqb_eq in H. subst. apply Z.eqb_refl.
  - intros H. apply String.eqb_eq in H. subst. apply String.eqb_refl.
  - intros H. apply Nat.eqb_eq in H. subst. apply Nat.eqb_refl.
  - intros H. apply Nat.eqb_eq in H. subst. apply Nat.eqb_refl.
Qed.

Lemma includes_app_last l v : Js.includes (l ++ [v]) v = true.
Proof.
  unfold Js.includes. rewrite existsb_app. simpl.
  by rewrite sameValueZero_refl, orb_true_r.
Qed.

(** X9.  After [optLoad] the event's option is selected only if the
    select's value accounts for it: the value is the option's value, or is
    an array holding it.  An option that is selected without that is
    unchecked. *)
Theorem optLoad_selected_is_accounted_for (target : nat) (p : Page) :
  let p' := optLoad target p in
  o_selected (element (elements p') target) = true ->
  accounts_for (value (this p')) (o_value (element (elements p') target)) = true.
Proof.
  intros p'. subst p'. unfold optLoad, accounts_for.
  set (p1 := if multiple (this (set_childOpts (descendants p) p))
             then _ else _).
  assert (Hels : elements p1 = elements p).
  { subst p1. simpl. by destruct (multiple (this p)). }
  destruct (Js.notNullish (value (this p1))
            && (Js.isArray (value (this p1))
                && Js.includes (array_items (value (this p1)))
                     (o_value (element (elements p1) target)))
            || Js.strictEquals (o_value (element (elements p1) target))
                 (value (this p1))) eqn:Hc.
  { intros _. simpl. rewrite element_write_value.
    apply orb_true_iff in Hc as [Hc|Hc].
    - apply andb_true_iff in Hc as [_ Hc].
      apply andb_true_iff in Hc as [_ Hc]. by rewrite Hc, orb_true_r.
    - by rewrite (strictEquals_sameValueZero _ _ Hc). }
  destruct (Js.isArray (value (this p1)) && multiple (this p1)
            && o_selected (element (elements p1) target)) eqn:Hpush.
  { intros _. simpl.
    apply andb_true_iff in Hpush as [Hpush _].
    apply andb_true_iff in Hpush as [Harr _].
    destruct (value (this p1)) as [| | | | | | |r items]; try discriminate.
    simpl. by rewrite includes_app_last, orb_true_r. }
  destruct (Js.strictEquals (value (this p1)) JUndefined
            && o_selected (element (elements p1) target)) eqn:Hundef.
  { intros _. simpl. by rewrite sameValueZero_refl. }
  destruct (o_selected (element (elements p1) target)) eqn:Hsel.
  - simpl. rewrite element_write_same. simpl. discriminate.
  - rewrite Hsel. discriminate.
Qed.

Lemma optLoad_selected_is_accounted_for_witness :
  o_selected (element (elements (optLoad 1 demo_page)) 1) = true /\
  accounts_for (value (this (optLoad 1 demo_page))) (JString "a") = true /\
  o_selected (element (elements (optLoad 2 demo_page)) 2) = false.
Proof.
  assert (Hsel : o_selected (element (elements (optLoad 1 demo_page)) 1) = true)
    by (vm_compute; reflexivity).
  split; [exact Hsel|].
  split; [|vm_compute; reflexivity].
  apply (optLoad_selected_is_accounted_for 1 demo_page Hsel).
Defined.

(** X10.  With [multiple] false, [optLoad] changes the value in one case
    only: the value is undefined and the event's option is selected; the
    value then becomes that option's value.  A value that is defined is
    never replaced. *)
Theorem optLoad_single_value (target : nat) (p : Page) :
  multiple (this p) = false ->
  value (this (optLoad target p))
  = (if Js.strictEquals (value (this p)) JUndefined
        && o_selected (element (elements p) target)
     then o_value (element (elements p) target)
     else value (this p)) /\
  (value (this p) <> JUndefined ->
   value (this (optLoad target p)) = value (this p)).
Proof.
  intros Hm.
  assert (Hval : value (this (optLoad target p))
            = (if Js.strictEquals (value (this p)) JUndefined
                  && o_selected (element (elements p) target)
               then o_value (element (elements p) target)
               else value (this p))
            /\ log (optLoad target p) = log p);
    [|destruct Hval as [Hval _]; split; [exact Hval|];
      intros Hdef; rewrite Hval;
      by destruct (value (this p))].
  revert Hm.
  intros Hm. unfold optLoad. simpl. rewrite Hm. simpl.
  destruct (value (this p)) eqn:Hv; simpl;
    repeat match goal with
           | |- context [if ?b then _ else _] => destruct b eqn:?
           end; simpl; rewrite ?Hv; try done.
  all: try (match goal with
            | H : Js.strictEquals ?a JUndefined = true |- _ =>
                destruct a; simpl in H; try discriminate
            end; done).
  (* the push needs [multiple] *)
  rewrite Hm in *. discriminate.
Qed.

Lemma optLoad_single_value_witness :
  multiple (this demo_page) = false /\
  value (this (optLoad 2 demo_page)) = JString "a" /\
  value (this (optLoad 2 (set_value JUndefined demo_page))) = JString "b" /\
  value (this (optLoad 1 (set_value JUndefined demo_page))) = JUndefined.
Proof.
  split; [reflexivity|].
  split.
  { destruct (optLoad_single_value 2 demo_page eq_refl) as [_ Hkept].
    apply Hkept. discriminate. }
  split.
  { destruct (optLoad_single_value 2 (set_value JUndefined demo_page) eq_refl)
      as [-> _].
    vm_compute. reflexivity. }
  destruct (optLoad_single_value 1 (set_value JUndefined demo_page) eq_refl)
    as [-> _].
  vm_compute. reflexivity.
Defined.

(** ** [componentWillLoad] and [hasValue] *)

(** X11.  After [componentWillLoad] the select has a value exactly when
    the initial value was truthy and [hasValue] accepted it.  The number 0
    and the boolean false, which [hasValue] alone counts as values, are
    discarded on load and leave the select without a value. *)
Theorem componentWillLoad_hasValue (p : Page) :
  hasValue (componentWillLoad p) = Js.truthy (value (this p)) && hasValue p /\
  hasValue (set_value (JNumber 0) p) = true /\
  hasValue (componentWillLoad (set_value (JNumber 0) p)) = false /\
  hasValue (set_value (JBool false) p) = true /\
  hasValue (componentWillLoad (set_value (JBool false) p)) = false.
Proof.
  split.
  - unfold componentWillLoad.
    destruct (Js.truthy (value (this p))); simpl; [done|].
    by destruct (multiple (this p)).
  - repeat split; unfold componentWillLoad; simpl;
      by destruct (multiple (this p)).
Qed.

(** ** What the overlays offer *)





(** ** [componentDidLoad] *)

Lemma push_checked r (checked : list nat) : forall acc p,
  fold_left
    (fun p o =>
       set_value (push (value (this p)) (o_value (element (elements p) o))) p)
    checked (set_value (JArray r acc) p)
  = set_value
      (JArray r (acc ++ map (fun o => o_value (element (elements p) o)) checked))
      p.
Proof.
  induction checked as [|o checked IH]; intros acc p; simpl.
  - by rewrite app_nil_r.
  - change (set_value _ (set_value (JArray r acc) p))
      with (set_value (JArray r (acc ++ [o_value (element (elements p) o)])) p).
    rewrite IH. by rewrite <- app_assoc.
Qed.

(** What [componentDidLoad] does to the page when [multiple] is set and
    the value is an array. *)
Lemma componentDidLoad_array i r old :
  multiple (this (page i)) = true ->
  value (this (page i)) = JArray r old ->
  loaded_page (componentDidLoad i)
  = Some (emitStyle
            (set_text (display_text (elements (page i)) (childOpts (this (page i))))
               (set_value
                  (JArray r (selected_values (elements (page i))
                                             (childOpts (this (page i)))))
                  (page i)))).
Proof.
  intros Hm Hv. unfold componentDidLoad. rewrite Hm, Hv.
  rewrite (push_checked r _ [] (page i)). reflexivity.
Qed.

(** What it does when [multiple] is not set. *)
Lemma componentDidLoad_single i :
  multiple (this (page i)) = false ->
  loaded_page (componentDidLoad i)
  = Some (emitStyle
            match List.find (fun o => o_selected (element (elements (page i)) o))
                            (childOpts (this (page i))) with
            | Some checked =>
                set_text
                  (text_or_empty (o_textContent (element (elements (page i)) checked)))
                  (set_value (o_value (element (elements (page i)) checked)) (page i))
            | None => page i
            end).
Proof.
  intros Hm. unfold componentDidLoad. rewrite Hm.
  by destruct (List.find _ _).
Qed.

Lemma componentDidLoad_cases i :
  match loaded_page (componentDidLoad i) with
  | Some q =>
      exists t v, q = emitStyle (set_text t (set_value v (page i)))
  | None =>
      multiple (this (page i)) = true
      /\ Js.isArray (value (this (page i))) = false
  end.
Proof.
  destruct (multiple (this (page i))) eqn:Hm.
  - destruct (value (this (page i))) as [| | | | | | |r old] eqn:Hv;
      try (unfold componentDidLoad; rewrite Hm, Hv; simpl; by split).
    rewrite (componentDidLoad_array i r old Hm Hv). eauto.
  - rewrite (componentDidLoad_single i Hm).
    destruct (List.find _ _); [eauto|].
    exists (text (this (page i))), (value (this (page i))).
    by destruct (page i) as [[] ? ? ? ? ?].
Qed.

Lemma find_head_filter {A} (f : A -> bool) (l : list A) :
  List.find f l = head (List.filter f l).
Proof.
  induction l as [|a l IH]; simpl; [done|]. by destruct (f a).
Qed.

(** X13.  [componentDidLoad] is quiet where it assigns no value: with
    [multiple] set, where it refills the array in place, and with
    [multiple] not set and no child option selected.  When it ends it has
    then emitted one [ionStyle] event and nothing else, the value is the
    one it started with or the same array with new items, and no option
    element was written. *)
Theorem componentDidLoad_quiet (i i' : Instance) :
  multiple (this (page i)) = true
  \/ selected_opts (elements (page i)) (childOpts (this (page i))) = [] ->
  componentDidLoad i = Loaded i' ->
  (exists c,
     logged_since (page i) (page i') = [IonStyle c]
     /\ style_payload (page i') c) /\
  (value (this (page i')) = value (this (page i))
   \/ exists r old items,
        value (this (page i)) = JArray r old
        /\ value (this (page i')) = JArray r items) /\
  elements (page i') = elements (page i) /\
  childOpts (this (page i')) = childOpts (this (page i)).
Proof.
  intros Hquiet Hload.
  assert (Hpage : loaded_page (componentDidLoad i) = Some (page i'))
    by (by rewrite Hload).
  destruct (multiple (this (page i))) eqn:Hm.
  - destruct (value (this (page i))) as [| | | | | | |r old] eqn:Hv;
      try (unfold componentDidLoad in Hload; rewrite Hm, Hv in Hload;
           discriminate).
    rewrite (componentDidLoad_array i r old Hm Hv) in Hpage.
    injection Hpage as <-.
    split.
    { eexists. split; [by apply logged_since_app|].
      match goal with |- style_payload (emitStyle ?q) _ =>
        exact (style_classes_payload q) end. }
    split; [right; exists r, old; eexists; split; [reflexivity|]; simpl;
            reflexivity|].
    by split.
  - destruct Hquiet as [?|Hnone]; [discriminate|].
    rewrite (componentDidLoad_single i Hm), find_head_filter in Hpage.
    unfold selected_opts in Hnone. rewrite Hnone in Hpage. simpl in Hpage.
    injection Hpage as <-.
    split.
    { eexists. split; [by apply logged_since_app|].
      exact (style_classes_payload (page i)). }
    split; [by left|]. by split.
Qed.

Lemma componentDidLoad_quiet_witness :
  multiple (this (page (instance_of demo_multiple))) = true /\
  exists i',
    componentDidLoad (instance_of demo_multiple) = Loaded i'
    /\ List.filter is_ionChange (logged_since demo_multiple (page i')) = []
    /\ length (logged_since demo_multiple (page i')) = 1
    /\ text (this (page i')) = "Banana, Avocado".
Proof.
  split; [reflexivity|].
  destruct (componentDidLoad (instance_of demo_multiple)) as [i'|] eqn:Hload.
  2: { vm_compute in Hload. discriminate. }
  exists i'. split; [reflexivity|].
  destruct (componentDidLoad_quiet (instance_of demo_multiple) i'
              (or_introl eq_refl) Hload) as ((c & Hlog & _) & _).
  change (page (instance_of demo_multiple)) with demo_multiple in Hlog.
  rewrite Hlog. split; [reflexivity|]. split; [reflexivity|].
  vm_compute in Hload. injection Hload as <-. vm_compute. reflexivity.
Defined.

Lemma componentDidLoad_refills_array_aux i r old :
  multiple (this (page i)) = true ->
  value (this (page i)) = JArray r old ->
  exists i',
    componentDidLoad i = Loaded i' /\
    value (this (page i'))
    = JArray r (selected_values (elements (page i)) (childOpts (this (page i)))).
Proof.
  intros Hm Hv. pose proof (componentDidLoad_array i r old Hm Hv) as Hload.
  destruct (componentDidLoad i) as [i'|] eqn:Hd; [|discriminate].
  simpl in Hload. injection Hload as Hpage.
  exists i'. split; [reflexivity|]. by rewrite Hpage.
Qed.

Lemma filter_nonempty_existsb {A} (f : A -> bool) (l : list A) :
  Nat.ltb 0 (length (List.filter f l)) = existsb f l.
Proof.
  induction l as [|a l IH]; simpl; [done|].
  destruct (f a); simpl; [done|exact IH].
Qed.

(** X14.  With [multiple] set and an array as value, [componentDidLoad]
    refills that same array: the value keeps its reference, so [===] sees
    no new value, and its items become the values of the selected child
    options; the text becomes their joined texts, and the select has a
    value exactly when some child option is selected. *)
Theorem componentDidLoad_refills_array (i : Instance) (r : nat)
    (old : list JsValue) :
  multiple (this (page i)) = true ->
  value (this (page i)) = JArray r old ->
  exists i',
    componentDidLoad i = Loaded i' /\
    value (this (page i'))
    = JArray r (selected_values (elements (page i)) (childOpts (this (page i)))) /\
    Js.strictEquals (value (this (page i'))) (value (this (page i))) = true /\
    text (this (page i'))
    = display_text (elements (page i)) (childOpts (this (page i))) /\
    hasValue (page i')
    = existsb (fun o => o_selected (element (elements (page i)) o))
              (childOpts (this (page i))).
Proof.
  intros Hm Hv. pose proof (componentDidLoad_array i r old Hm Hv) as Hload.
  destruct (componentDidLoad i) as [i'|] eqn:Hd; [|discriminate].
  simpl in Hload. injection Hload as Hpage.
  exists i'. split; [reflexivity|]. rewrite Hpage, Hv. simpl.
  split; [reflexivity|]. split; [apply Nat.eqb_refl|].
  split; [reflexivity|].
  unfold hasValue; simpl. unfold selected_values. rewrite length_map.
  apply filter_nonempty_existsb.
Qed.

Lemma componentDidLoad_refills_array_witness :
  multiple (this demo_multiple) = true /\
  exists i',
    componentDidLoad (instance_of demo_multiple) = Loaded i'
    /\ value (this (page i')) = JArray 4 [JString "b"; JString "a"]
    /\ hasValue (page i') = true.
Proof.
  split; [reflexivity|].
  destruct (componentDidLoad_refills_array (instance_of demo_multiple) 4
              [JString "b"; JString "a"] eq_refl eq_refl)
    as (i' & Hload & Hv & _ & _ & Hh).
  exists i'. split; [exact Hload|]. split.
  - rewrite Hv. vm_compute. reflexivity.
  - rewrite Hh. vm_compute. reflexivity.
Defined.

(** X15.  With [multiple] not set, [componentDidLoad] takes the value and
    the text of the first selected child option, also when several are
    selected; with no child option selected, the value and the text stay
    as they were. *)
Theorem componentDidLoad_takes_first_selected (i : Instance) :
  multiple (this (page i)) = false ->
  exists i',
    componentDidLoad i = Loaded i' /\
    match selected_opts (elements (page i)) (childOpts (this (page i))) with
    | first :: _ =>
        value (this (page i')) = o_value (element (elements (page i)) first)
        /\ text (this (page i'))
           = text_or_empty (o_textContent (element (elements (page i)) first))
    | [] =>
        value (this (page i')) = value (this (page i))
        /\ text (this (page i')) = text (this (page i))
    end.
Proof.
  intros Hm. pose proof (componentDidLoad_single i Hm) as Hload.
  destruct (componentDidLoad i) as [i'|] eqn:Hd; [|discriminate].
  simpl in Hload. injection Hload as Hpage.
  exists i'. split; [reflexivity|]. rewrite Hpage. clear Hpage Hd.
  rewrite find_head_filter. fold (selected_opts (elements (page i))
                                    (childOpts (this (page i)))).
  by destruct (selected_opts (elements (page i)) (childOpts (this (page i)))).
Qed.

Lemma componentDidLoad_takes_first_selected_witness :
  multiple (this demo_page) = false /\
  selected_opts (elements demo_page) (childOpts (this demo_page)) = [2; 3] /\
  exists i',
    componentDidLoad (instance_of demo_page) = Loaded i'
    /\ value (this (page i')) = JString "b"
    /\ text (this (page i')) = "Banana".
Proof.
  split; [reflexivity|].
  assert (Hs : selected_opts (elements (page (instance_of demo_page)))
                 (childOpts (this (page (instance_of demo_page)))) = [2; 3])
    by (vm_compute; reflexivity).
  split; [exact Hs|].
  destruct (componentDidLoad_takes_first_selected (instance_of demo_page)
              eq_refl) as (i' & Hload & Hfirst).
  exists i'. split; [exact Hload|].
  rewrite Hs in Hfirst. destruct Hfirst as [Hv Ht].
  split.
  - rewrite Hv. vm_compute. reflexivity.
  - rewrite Ht. vm_compute. reflexivity.
Defined.

(** X16.  Loading in sequence: after [componentWillLoad], a select with
    [multiple] set whose initial value was falsy or an array always gets
    through [componentDidLoad], and ends with an array of the values of
    the selected child options; a select without [multiple] always gets
    through. *)
Theorem load_sequence (i : Instance) :
  multiple (this (page i)) = false
  \/ falsy (value (this (page i)))
  \/ Js.isArray (value (this (page i))) = true ->
  exists i',
    componentDidLoad (set_page (componentWillLoad (page i)) i) = Loaded i' /\
    (multiple (this (page i)) = true ->
     exists r,
       value (this (page i'))
       = JArray r (selected_values (elements (page i))
                                   (childOpts (this (page i))))).
Proof.
  intros Hpre.
  destruct (multiple (this (page i))) eqn:Hm.
  - assert (Harr : exists r old,
              value (this (componentWillLoad (page i))) = JArray r old).
    { unfold componentWillLoad.
      destruct (Js.truthy (value (this (page i)))) eqn:Ht; simpl.
      - destruct Hpre as [Hf|[Hf|Ha]]; [discriminate| |].
        + apply truthy_falsy in Hf. congruence.
        + destruct (value (this (page i))); try discriminate. eauto.
      - rewrite Hm. simpl. eauto. }
    destruct Harr as (r & old & Hv).
    assert (Hm' : multiple (this (page (set_page (componentWillLoad (page i)) i)))
                  = true).
    { simpl. unfold componentWillLoad.
      destruct (negb _); [|exact Hm]. rewrite Hm. exact Hm. }
    destruct (componentDidLoad_refills_array_aux
                (set_page (componentWillLoad (page i)) i) r old Hm' Hv)
      as (i' & Hload & Hval).
    exists i'. split; [exact Hload|]. intros _. exists r.
    rewrite Hval. simpl. f_equal.
    unfold componentWillLoad. destruct (negb _); [|reflexivity].
    by rewrite Hm.
  - assert (Hm' : multiple (this (page (set_page (componentWillLoad (page i)) i)))
                  = false).
    { simpl. unfold componentWillLoad.
      destruct (negb _); [|exact Hm]. rewrite Hm. exact Hm. }
    pose proof (componentDidLoad_single _ Hm') as Hload.
    destruct (componentDidLoad _) as [i'|]; [|discriminate].
    exists i'. split; [reflexivity|]. discriminate.
Qed.

Lemma load_sequence_witness :
  falsy (value (this (set_value (JNumber 0) demo_multiple))) /\
  exists i',
    componentDidLoad
      (set_page (componentWillLoad (set_value (JNumber 0) demo_multiple))
                (instance_of (set_value (JNumber 0) demo_multiple)))
    = Loaded i'
    /\ value (this (page i')) = JArray 10 [JString "b"; JString "a"].
Proof.
  assert (Hf : falsy (value (this (set_value (JNumber 0) demo_multiple))))
    by (unfold falsy; simpl; auto 10).
  split; [exact Hf|].
  destruct (load_sequence (instance_of (set_value (JNumber 0) demo_multiple))
              (or_intror (or_introl Hf))) as (i' & Hload & Hv).
  exists i'. split; [exact Hload|].
  destruct (Hv eq_refl) as (r & Hval).
  assert (Hr : Js.strictEquals (value (this (page i'))) (JArray 10 []) = true).
  { injection Hload as <-. vm_compute. reflexivity. }
  rewrite Hval in *. simpl in Hr. apply Nat.eqb_eq in Hr as ->.
  vm_compute. reflexivity.
Defined.

(** ** [render] *)

Lemma valueChanged_no_match p :
  NoDup (childOpts (this p)) ->
  existsb (matches (elements p) (value (this p))) (childOpts (this p)) = false ->
  selected_opts (elements (valueChanged p)) (childOpts (this p)) = [].
Proof.
  intros Hnd Hnone. unfold selected_opts. apply filter_none.
  intros o Hin. apply list_elem_of_split in Hin as (pre & post & Hsplit).
  rewrite (valueChanged_selected p pre o post Hnd Hsplit).
  rewrite Hsplit, existsb_app in Hnone. simpl in Hnone.
  apply orb_false_iff in Hnone as [_ Hnone].
  apply orb_false_iff in Hnone as [-> _]. reflexivity.
Qed.

Section Rendering.

Variable numberToString : Z -> string.
Variable objectToString : nat -> string.

(** X17.  What the select shows after the value watcher ran, when no
    [selectedText] is set and a placeholder is: the placeholder, marked
    with the placeholder class, if no child option carries the value; and
    the joined texts of the selected options, without that class, whenever
    that text is not empty. *)
Theorem render_after_valueChanged (i : Instance) (ph : string) :
  NoDup (childOpts (this (page i))) ->
  selectedText i = None ->
  placeholder i = Some ph ->
  let i' := set_page (valueChanged (page i)) i in
  let shown := display_text (elements (page i')) (childOpts (this (page i'))) in
  (existsb (matches (elements (page i)) (value (this (page i))))
           (childOpts (this (page i))) = false ->
   node_text (rendered numberToString objectToString i') 0 = Some ph
   /\ node_class (rendered numberToString objectToString i') 0 "select-placeholder" = Some true) /\
  (shown <> EmptyString ->
   node_text (rendered numberToString objectToString i') 0 = Some shown
   /\ node_class (rendered numberToString objectToString i') 0 "select-placeholder" = Some false).
Proof.
  intros Hnd Hst Hph i' shown.
  assert (Htext : text (this (page i')) = shown)
    by apply (valueChanged_display_text (page i) Hnd).
  assert (Hsot : selectedText_or_text i' = shown).
  { unfold selectedText_or_text. simpl. rewrite Hst. exact Htext. }
  split.
  - intros Hnone.
    assert (Hempty : shown = EmptyString).
    { subst shown. unfold display_text.
      change (childOpts (this (page i'))) with (childOpts (this (page i))).
      change (elements (page i')) with (elements (valueChanged (page i))).
      by rewrite (valueChanged_no_match (page i) Hnd Hnone). }
    unfold rendered, render. simpl placeholder. rewrite Hph, Hsot, Hempty.
    split; reflexivity.
  - intros Hne.
    unfold rendered, render. simpl placeholder. rewrite Hph, Hsot.
    destruct (String.eqb_spec shown EmptyString) as [Heq|_]; [done|].
    split; reflexivity.
Qed.


(** X19.  When the select sits in an item with a label,
    [componentDidLoad] gives the label an id derived from the select's
    name, and the button that [render] returns names that id in
    [aria-labelledby]. *)
Theorem label_wiring (i i' : Instance) (t : option string) :
  label (page i) = Some t ->
  componentDidLoad i = Loaded i' ->
  label_id i' = Some (name i +:+ "-lbl") /\
  node_attr (rendered numberToString objectToString i') 2 "aria-labelledby"
  = Some (AttrString (name i +:+ "-lbl")).
Proof.
  intros Hlabel Hload.
  assert (Hid : labelId i' = Some (name i +:+ "-lbl")
                /\ label_id i' = Some (name i +:+ "-lbl")).
  { unfold componentDidLoad in Hload. rewrite Hlabel in Hload.
    destruct (multiple (this (page i))).
    - destruct (value (this (page i))); try discriminate.
      injection Hload as <-. by split.
    - injection Hload as <-. by split. }
  destruct Hid as [Hlid Hid]. split; [exact Hid|].
  unfold rendered, render.
  destruct (placeholder i') as [ph|]; [destruct (String.eqb _ _)|];
    cbn; by rewrite Hlid.
Qed.


End Rendering.

Lemma render_after_valueChanged_witness :
  NoDup (childOpts (this (page placeholder_instance))) /\
  node_text
    (rendered (fun _ => EmptyString) (fun _ => EmptyString)
       (set_page (valueChanged (page placeholder_instance)) placeholder_instance))
    0
  = Some "Pick a fruit".
Proof.
  assert (Hnd : NoDup (childOpts (this (page placeholder_instance)))).
  { apply (bool_decide_unpack _). vm_compute. exact I. }
  split; [exact Hnd|].
  apply (render_after_valueChanged (fun _ => EmptyString) (fun _ => EmptyString)
           placeholder_instance "Pick a fruit" Hnd eq_refl eq_refl).
  vm_compute. reflexivity.
Defined.


Lemma label_wiring_witness :
  label (page labelled_instance) = Some (Some "Fruit") /\
  exists i',
    componentDidLoad labelled_instance = Loaded i'
    /\ node_attr (rendered (fun _ => EmptyString) (fun _ => EmptyString) i')
         2 "aria-labelledby"
       = Some (AttrString "fruit-lbl").
Proof.
  split; [reflexivity|].
  eexists. split; [reflexivity|].
  apply (label_wiring (fun _ => EmptyString) (fun _ => EmptyString)
           labelled_instance _ (Some "Fruit") eq_refl eq_refl).
Defined.

(** ** The option list of a reachable page *)

Lemma reachable_well_formed_witness :
  reachable (optLoad 1 new_page) /\
  childOpts (this (optLoad 1 new_page)) = [1; 2; 3] /\
  NoDup (childOpts (this (optLoad 1 new_page))).
Proof.
  assert (Hreach : reachable (optLoad 1 new_page)).
  { apply (reachable_step new_page); [|constructor].
    apply reachable_initial, new_page_initial. }
  split; [exact Hreach|]. split; [vm_compute; reflexivity|].
  apply (reachable_well_formed _ Hreach).
Defined.
